(** * Chat client: store reducer, send protocol and upload coordinator

    A shallow embedding of the state logic of [Chat.tsx], [types.ts] and
    [DocumentUpload.tsx].  React state is threaded explicitly; the
    asynchronous handlers run in a small state-and-exception monad whose
    network answers come from an oracle. *)

From Stdlib Require Import String Ascii DecimalString.
From Stdlib Require DecimalPos DecimalN.
From Stdlib Require Import List NArith Bool Lia Arith.
Import ListNotations.

Set Implicit Arguments.

(** ** JavaScript strings and the few built-ins the components use *)

Module JS.

(** A JS string is a sequence of UTF-16 code units; [length] and [slice]
    count code units. *)
Definition code_unit := N.
Definition jsstring := list code_unit.

(** A literal of the source. *)
Definition lit (s : string) : jsstring :=
  map N_of_ascii (list_ascii_of_string s).

Fixpoint str_eqb (a b : jsstring) : bool :=
  match a, b with
  | [], [] => true
  | x :: a', y :: b' => N.eqb x y && str_eqb a' b'
  | _, _ => false
  end.

(** [a === b] where both sides have type [string | null]. *)
Definition opt_eqb (a b : option jsstring) : bool :=
  match a, b with
  | None, None => true
  | Some x, Some y => str_eqb x y
  | _, _ => false
  end.

(** Truthiness of a string: only the empty string is falsy. *)
Definition truthy (s : jsstring) : bool :=
  match s with [] => false | _ :: _ => true end.

(** Truthiness of a [string | null]. *)
Definition truthy_opt (o : option jsstring) : bool :=
  match o with None => false | Some s => truthy s end.

(** [s.slice(0, n)] *)
Definition slice0 (n : nat) (s : jsstring) : jsstring := firstn n s.

(** WhiteSpace and LineTerminator code units, as [String.prototype.trim]
    strips them. *)
Definition is_space (c : code_unit) : bool :=
  ((9 <=? c) && (c <=? 13) || (c =? 32) || (c =? 160) || (c =? 5760)
   || (8192 <=? c) && (c <=? 8202) || (c =? 8232) || (c =? 8233)
   || (c =? 8239) || (c =? 8287) || (c =? 12288) || (c =? 65279))%N.

Fixpoint trimStart (s : jsstring) : jsstring :=
  match s with
  | c :: s' => if is_space c then trimStart s' else s
  | [] => []
  end.

Definition trimEnd (s : jsstring) : jsstring := rev (trimStart (rev s)).

Definition trim (s : jsstring) : jsstring := trimEnd (trimStart s).

(** [n.toString()] for a non-negative integer. *)
Definition toString (n : N) : jsstring :=
  lit (NilEmpty.string_of_uint (N.to_uint n)).

(** [new Date()], as the milliseconds since the epoch. *)
Definition Date := N.

End JS.
Import JS.

(** ** types.ts *)

Inductive Role := user | assistant.

Record Message := mkMessage {
  role : Role;
  content : jsstring;
  msg_timestamp : option jsstring   (* timestamp?: string *)
}.

Record Chat := mkChat {
  chat_id : jsstring;
  chat_title : jsstring;
  chat_messages : list Message;
  chat_timestamp : Date;
  chat_folderId : option jsstring
}.

Record Folder := mkFolder {
  folder_id : jsstring;
  folder_name : jsstring;
  folder_timestamp : Date;
  folder_isExpanded : option bool     (* isExpanded?: boolean *)
}.

Record ChatStore := mkStore {
  chats : list Chat;
  folders : list Folder;
  currentChatId : option jsstring;
  currentFolderId : option jsstring
}.

(** Object spreads [{ ...x, field: v }]. *)
Definition chat_with_title (t : jsstring) (c : Chat) : Chat :=
  mkChat (chat_id c) t (chat_messages c) (chat_timestamp c) (chat_folderId c).
Definition chat_with_messages (m : list Message) (c : Chat) : Chat :=
  mkChat (chat_id c) (chat_title c) m (chat_timestamp c) (chat_folderId c).
Definition chat_with_folderId (f : option jsstring) (c : Chat) : Chat :=
  mkChat (chat_id c) (chat_title c) (chat_messages c) (chat_timestamp c) f.
Definition folder_with_name (n : jsstring) (f : Folder) : Folder :=
  mkFolder (folder_id f) n (folder_timestamp f) (folder_isExpanded f).
Definition folder_with_isExpanded (b : bool) (f : Folder) : Folder :=
  mkFolder (folder_id f) (folder_name f) (folder_timestamp f) (Some b).
Definition store_with_chats (cs : list Chat) (s : ChatStore) : ChatStore :=
  mkStore cs (folders s) (currentChatId s) (currentFolderId s).
Definition store_with_folders (fs : list Folder) (s : ChatStore) : ChatStore :=
  mkStore (chats s) fs (currentChatId s) (currentFolderId s).
Definition store_with_currentChatId (i : option jsstring) (s : ChatStore)
  : ChatStore :=
  mkStore (chats s) (folders s) i (currentFolderId s).

(** The initial state literal of the store initializer. *)
Definition emptyStore : ChatStore := mkStore [] [] None None.

(** ** Chat.tsx: the store updaters

    Each definition below is the function handed to [setStore] by the
    handler of the same name. *)

(** The title expression of [updateChatTitle]:
    [firstMessage.slice(0, 30) + (firstMessage.length > 30 ? "..." : "")]. *)
Definition deriveTitle (firstMessage : jsstring) : jsstring :=
  slice0 30 firstMessage
  ++ (if 30 <? length firstMessage then lit "..." else lit "").

Definition updateChatTitle (chatId firstMessage : jsstring) (prev : ChatStore)
  : ChatStore :=
  store_with_chats
    (map (fun chat =>
            if str_eqb (chat_id chat) chatId
            then chat_with_title (deriveTitle firstMessage) chat
            else chat)
         (chats prev))
    prev.


(** [createNewFolder]: [folders: [...prev.folders, newFolder]]. *)
Definition createNewFolder_update (newFolder : Folder) (prev : ChatStore)
  : ChatStore :=
  store_with_folders (folders prev ++ [newFolder]) prev.

(** [createNewChat]: [chats: [newChat, ...prev.chats],
    currentChatId: newChat.id]. *)
Definition createNewChat_update (newChat : Chat) (prev : ChatStore)
  : ChatStore :=
  mkStore (newChat :: chats prev) (folders prev)
          (Some (chat_id newChat)) (currentFolderId prev).

(** [getCurrentChat]: [undefined] on a falsy [currentChatId], else the first
    chat with that id. *)
Definition getCurrentChat (store : ChatStore) : option Chat :=
  match currentChatId store with
  | None => None
  | Some cur =>
      if negb (truthy cur) then None
      else find (fun chat => str_eqb (chat_id chat) cur) (chats store)
  end.

(** The updater of both branches of [handleSubmit]: the chats whose id is
    [store.currentChatId] (the id captured when the handler started) get the
    user message and the assistant message appended. *)
Definition appendExchange (capturedId : option jsstring)
    (userText assistantText : jsstring) (prev : ChatStore) : ChatStore :=
  store_with_chats
    (map (fun chat =>
            if opt_eqb (Some (chat_id chat)) capturedId
            then chat_with_messages
                   (chat_messages chat
                    ++ [mkMessage user userText None;
                        mkMessage assistant assistantText None])
                   chat
            else chat)
         (chats prev))
    prev.

Definition apology : jsstring :=
  lit "Sorry, there was an error processing your request.".

(** [prev.chats[0]?.id || null] *)
Definition firstChatId (cs : list Chat) : option jsstring :=
  match cs with
  | [] => None
  | c :: _ => if truthy (chat_id c) then Some (chat_id c) else None
  end.

(** [deleteChat]: the filter runs on [prev.chats], and so does the
    reselection. *)
Definition deleteChat_update (chatId : jsstring) (prev : ChatStore)
  : ChatStore :=
  mkStore
    (filter (fun chat => negb (str_eqb (chat_id chat) chatId)) (chats prev))
    (folders prev)
    (if opt_eqb (Some chatId) (currentChatId prev)
     then firstChatId (chats prev)
     else currentChatId prev)
    (currentFolderId prev).

Definition deleteFolder_update (folderId : jsstring) (prev : ChatStore)
  : ChatStore :=
  mkStore
    (map (fun chat =>
            if opt_eqb (chat_folderId chat) (Some folderId)
            then chat_with_folderId None chat
            else chat)
         (chats prev))
    (filter (fun f => negb (str_eqb (folder_id f) folderId)) (folders prev))
    (currentChatId prev)
    (currentFolderId prev).

(** [!f.isExpanded] on the optional field: an absent flag is falsy. *)
Definition not_isExpanded (f : Folder) : bool :=
  match folder_isExpanded f with
  | Some b => negb b
  | None => true
  end.

Definition toggleFolder_update (folderId : jsstring) (prev : ChatStore)
  : ChatStore :=
  store_with_folders
    (map (fun f =>
            if str_eqb (folder_id f) folderId
            then folder_with_isExpanded (not_isExpanded f) f
            else f)
         (folders prev))
    prev.

(** The [onChange] updater of the folder-name input. *)
Definition renameFolder_update (folderId name : jsstring) (prev : ChatStore)
  : ChatStore :=
  store_with_folders
    (map (fun f =>
            if str_eqb (folder_id f) folderId
            then folder_with_name name f
            else f)
         (folders prev))
    prev.

(** The updater of [handleDrop]. *)
Definition moveChat_update (draggedChatId : jsstring)
    (targetFolderId : option jsstring) (prev : ChatStore) : ChatStore :=
  store_with_chats
    (map (fun chat =>
            if str_eqb (chat_id chat) draggedChatId
            then chat_with_folderId targetFolderId chat
            else chat)
         (chats prev))
    prev.

(** The [onClick] updater of a chat row. *)
Definition selectChat_update (chatId : jsstring) (prev : ChatStore)
  : ChatStore :=
  store_with_currentChatId (Some chatId) prev.

(** The store operations as one datatype, with the values the handlers
    read from the clock ([Date.now()] and [new Date()]) as arguments. *)
Inductive StoreOp :=
| OpCreateFolder (now : N) (date : Date) (name : jsstring)
| OpCreateChat (now : N) (date : Date) (folderId : option jsstring)
| OpSelectChat (chatId : jsstring)
| OpRenameFolder (folderId name : jsstring)
| OpToggleFolder (folderId : jsstring)
| OpDeleteChat (chatId : jsstring)
| OpDeleteFolder (folderId : jsstring)
| OpMoveChat (chatId : jsstring) (targetFolderId : option jsstring)
| OpAppendExchange (capturedId : option jsstring)
                   (userText assistantText : jsstring)
| OpUpdateChatTitle (chatId firstMessage : jsstring).

Definition newFolder (now : N) (date : Date) (name : jsstring) : Folder :=
  mkFolder (toString now) name date (Some true).

Definition newChat (now : N) (date : Date) (folderId : option jsstring)
  : Chat :=
  mkChat (toString now) (lit "New Chat") [] date folderId.

Definition apply_op (op : StoreOp) (prev : ChatStore) : ChatStore :=
  match op with
  | OpCreateFolder now date name =>
      createNewFolder_update (newFolder now date name) prev
  | OpCreateChat now date folderId =>
      createNewChat_update (newChat now date folderId) prev
  | OpSelectChat chatId => selectChat_update chatId prev
  | OpRenameFolder folderId name => renameFolder_update folderId name prev
  | OpToggleFolder folderId => toggleFolder_update folderId prev
  | OpDeleteChat chatId => deleteChat_update chatId prev
  | OpDeleteFolder folderId => deleteFolder_update folderId prev
  | OpMoveChat chatId target => moveChat_update chatId target prev
  | OpAppendExchange cid u a => appendExchange cid u a prev
  | OpUpdateChatTitle chatId m => updateChatTitle chatId m prev
  end.

(** The id an operation generates, if it generates one for a chat. *)
Definition fresh_chat_id (op : StoreOp) : option jsstring :=
  match op with
  | OpCreateChat now _ _ => Some (toString now)
  | _ => None
  end.

Definition chat_ids (s : ChatStore) : list jsstring := map chat_id (chats s).


(** ** Effects: network, exceptions, state commits

    A handler is a computation over a world made of the component's state
    and the trace of what it has done so far.  [fetch] asks the oracle
    [net], indexed by the number of requests already sent, so the same
    request may be answered differently over time.  A handler runs to its
    end without another handler interleaved at an [await]. *)

Record File := mkFile { file_name : jsstring }.

Inductive Method := GET | POST | DELETE.

Inductive ReqBody :=
| NoBody
| ChatBody (message : jsstring) (session_id : option jsstring)
| FormData (file : File).

Record Request := mkReq {
  req_method : Method;
  req_url : jsstring;
  req_body : ReqBody
}.

(** The fields the components read off a parsed response body. *)
Record JsonData := mkJson {
  data_response : jsstring;
  data_detail : option jsstring;
  data_documents : list jsstring
}.

(** What a [fetch] comes back with: a rejected promise (transport failure),
    or a response with its [ok] flag and its body, [None] when
    [response.json()] rejects. *)
Inductive FetchResult :=
| NetworkFailure
| Response (ok : bool) (body : option JsonData).

Inductive Error :=
| TypeError            (* fetch rejected *)
| SyntaxError          (* JSON.parse or response.json() failed *)
| ErrorMsg (msg : jsstring).

Inductive Outcome (A : Type) :=
| Ok (a : A)
| Throw (e : Error).
Arguments Throw {A} e.

Section Effects.
Variable net : nat -> Request -> FetchResult.
Variable S : Type.

Inductive Event :=
| EvFetch (r : Request)
| EvCommit (s : S)
| EvConsoleLog (label : jsstring)
| EvConsoleError (label : jsstring) (e : Error).

Record World := mkWorld { comp : S; trace : list Event }.

Definition M (A : Type) := World -> Outcome A * World.

Definition ret {A} (a : A) : M A := fun w => (Ok a, w).

Definition bind {A B} (m : M A) (k : A -> M B) : M B :=
  fun w =>
    match m w with
    | (Ok a, w') => k a w'
    | (Throw e, w') => (Throw e, w')
    end.

Definition throw {A} (e : Error) : M A := fun w => (Throw e, w).

(** [try { m } catch (error) { h error }] *)
Definition try_catch {A} (m : M A) (h : Error -> M A) : M A :=
  fun w =>
    match m w with
    | (Ok a, w') => (Ok a, w')
    | (Throw e, w') => h e w'
    end.

(** [try { m } finally { fin }] *)
Definition try_finally {A} (m : M A) (fin : M unit) : M A :=
  fun w =>
    match m w with
    | (r, w') =>
        match fin w' with
        | (Ok _, w'') => (r, w'')
        | (Throw e, w'') => (Throw e, w'')
        end
    end.

Definition getState : M S := fun w => (Ok (comp w), w).

(** A state setter called with an updater function. *)
Definition setState (f : S -> S) : M unit :=
  fun w =>
    let s' := f (comp w) in
    (Ok tt, mkWorld s' (trace w ++ [EvCommit s'])).

Definition emit (e : Event) : M unit :=
  fun w => (Ok tt, mkWorld (comp w) (trace w ++ [e])).

Definition console_log (label : jsstring) : M unit :=
  emit (EvConsoleLog label).

Definition console_error (label : jsstring) (e : Error) : M unit :=
  emit (EvConsoleError label e).

Definition is_fetch (e : Event) : bool :=
  match e with EvFetch _ => true | _ => false end.

Definition fetches (t : list Event) : list Request :=
  flat_map (fun e => match e with EvFetch r => [r] | _ => [] end) t.

Definition commits (t : list Event) : list S :=
  flat_map (fun e => match e with EvCommit s => [s] | _ => [] end) t.

(** [await fetch(url, init)] *)
Definition fetch (r : Request) : M (bool * option JsonData) :=
  fun w =>
    let w' := mkWorld (comp w) (trace w ++ [EvFetch r]) in
    match net (length (fetches (trace w))) r with
    | NetworkFailure => (Throw TypeError, w')
    | Response ok body => (Ok (ok, body), w')
    end.

(** [await response.json()] *)
Definition json (body : option JsonData) : M JsonData :=
  match body with
  | Some d => ret d
  | None => throw SyntaxError
  end.

(** Run a handler on a component state, from an empty trace. *)
Definition run {A} (m : M A) (s : S) : Outcome A * World :=
  m (mkWorld s []).

End Effects.

Arguments ret {S A} a.
Arguments throw {S A} e.
Arguments getState {S}.
Arguments setState {S} f.
Arguments console_log {S} label.
Arguments console_error {S} label e.
Arguments json {S} body.
Arguments EvFetch {S} r.
Arguments EvCommit {S} s.
Arguments EvConsoleLog {S} label.
Arguments EvConsoleError {S} label e.

Declare Scope eff_scope.
Delimit Scope eff_scope with eff.
Notation "x <- m ;; k" := (bind m (fun x => k))
  (at level 100, m at next level, right associativity) : eff_scope.
Notation "m ;; k" := (bind m (fun _ => k))
  (at level 100, right associativity) : eff_scope.
Open Scope eff_scope.


(** ** Chat.tsx: the component *)

Record ChatComponent := mkChatComponent {
  isDarkMode : bool;
  input : jsstring;
  isLoading : bool;
  store : ChatStore;
  newFolderName : jsstring;
  editingFolderId : option jsstring;
  draggedChatId : option jsstring
}.

Definition setIsDarkMode (b : bool) (c : ChatComponent) : ChatComponent :=
  mkChatComponent b (input c) (isLoading c) (store c) (newFolderName c)
                  (editingFolderId c) (draggedChatId c).
Definition setInput (i : jsstring) (c : ChatComponent) : ChatComponent :=
  mkChatComponent (isDarkMode c) i (isLoading c) (store c) (newFolderName c)
                  (editingFolderId c) (draggedChatId c).
Definition setIsLoading (b : bool) (c : ChatComponent) : ChatComponent :=
  mkChatComponent (isDarkMode c) (input c) b (store c) (newFolderName c)
                  (editingFolderId c) (draggedChatId c).
Definition setStore (f : ChatStore -> ChatStore) (c : ChatComponent)
  : ChatComponent :=
  mkChatComponent (isDarkMode c) (input c) (isLoading c) (f (store c))
                  (newFolderName c) (editingFolderId c) (draggedChatId c).
Definition setNewFolderName (n : jsstring) (c : ChatComponent)
  : ChatComponent :=
  mkChatComponent (isDarkMode c) (input c) (isLoading c) (store c) n
                  (editingFolderId c) (draggedChatId c).
Definition setDraggedChatId (d : option jsstring) (c : ChatComponent)
  : ChatComponent :=
  mkChatComponent (isDarkMode c) (input c) (isLoading c) (store c)
                  (newFolderName c) (editingFolderId c) d.

Definition chatM := M ChatComponent.

Section ChatHandlers.
Variable net : nat -> Request -> FetchResult.

(** [JSON.parse] at the type the source gives its result ([ChatStore],
    unchecked); [None] is a thrown [SyntaxError].  A text whose parse is
    not a store (an empty object, a number) has no value here: the model
    speaks of texts that fail to parse and of texts that parse to a
    store. *)
Variable JSON_parse : jsstring -> option ChatStore.

Definition parse {S} (text : jsstring) : M S ChatStore :=
  match JSON_parse text with
  | Some v => ret v
  | None => throw SyntaxError
  end.

(** The initializer handed to [useState<ChatStore>]; [savedStore] is what
    [localStorage.getItem("chatStore")] returns.  It runs before the
    component has any state, hence over [unit]. *)
Definition storeInitializer (savedStore : option jsstring)
  : M unit ChatStore :=
  early <- try_catch
             (match savedStore with
              | Some text =>
                  if truthy text
                  then (v <- parse text ;; ret (Some v))
                  else ret None
              | None => ret None
              end)
             (fun error =>
                console_error (lit "Error loading initial state:") error ;;
                ret None) ;;
  match early with
  | Some v => ret v
  | None => ret emptyStore
  end.

(** The mount effect ([useEffect(..., [])]); [savedDark] is what
    [localStorage.getItem("darkMode")] returns. *)
Definition mountEffect (savedDark savedStore : option jsstring)
  : chatM unit :=
  let savedDarkMode := opt_eqb savedDark (Some (lit "true")) in
  setState (setIsDarkMode savedDarkMode) ;;
  console_log (lit "Loading from localStorage:") ;;
  match savedStore with
  | Some text =>
      if truthy text
      then (parsed <- parse text ;;
            console_log (lit "Parsed store:") ;;
            setState (setStore (fun _ => parsed)))
      else ret tt
  | None => ret tt
  end.

(** The state of the first render, given the store the initializer
    returned. *)
Definition firstRender (store0 : ChatStore) : ChatComponent :=
  mkChatComponent false (lit "") false store0 (lit "") None None.

(** Startup: the initializer runs during the first render, the mount
    effect after it.  No error boundary surrounds the component, so what
    either of them throws is the outcome of startup. *)
Definition startup (savedDark savedStore : option jsstring)
  : Outcome unit * World ChatComponent :=
  match fst (run (storeInitializer savedStore) tt) with
  | Ok store0 => run (mountEffect savedDark savedStore) (firstRender store0)
  | Throw e => (Throw e, mkWorld (firstRender emptyStore) [])
  end.

Definition createNewFolder (now : N) (date : Date) (c : ChatComponent)
  : ChatComponent :=
  if negb (truthy (trim (newFolderName c))) then c
  else
    setNewFolderName (lit "")
      (setStore
         (createNewFolder_update (newFolder now date (newFolderName c))) c).

Definition createNewChat (now : N) (date : Date)
    (folderId : option jsstring) (c : ChatComponent) : ChatComponent :=
  setStore (createNewChat_update (newChat now date folderId)) c.

Definition url (base : string) (tail : jsstring) : jsstring :=
  lit base ++ tail.

(** [handleSubmit].  [c] is the render the handler closes over: [input]
    and [store.currentChatId] below are read from it, while the updaters
    receive the state current when they run. *)
Definition handleSubmit : chatM unit :=
  c <- getState ;;
  match getCurrentChat (store c) with
  | None => ret tt
  | Some currentChat =>
      if negb (truthy (trim (input c))) then ret tt
      else
        setState (setIsLoading true) ;;
        let isFirstMessage := length (chat_messages currentChat) =? 0 in
        try_catch
          (let folderId :=
             match chat_folderId currentChat with
             | Some f => if truthy f then f else lit "default"
             | None => lit "default"
             end in
           response <- fetch net
                         (mkReq POST
                            (url "http://localhost:8000/chat/" folderId)
                            (ChatBody (input c) (currentChatId (store c)))) ;;
           if negb (fst response)
           then throw (ErrorMsg (lit "Failed to get response"))
           else
             data <- json (snd response) ;;
             setState
               (setStore (appendExchange (currentChatId (store c))
                                         (input c) (data_response data))) ;;
             if isFirstMessage
             then
               match currentChatId (store c) with
               | Some cur => setState (setStore (updateChatTitle cur (input c)))
               | None => ret tt
               end
             else ret tt)
          (fun error =>
             console_error (lit "Error:") error ;;
             setState
               (setStore (appendExchange (currentChatId (store c))
                                         (input c) apology))) ;;
        setState (setIsLoading false) ;;
        setState (setInput (lit ""))
  end.

Definition deleteChat (chatId : jsstring) : chatM unit :=
  try_catch
    (_ <- fetch net
            (mkReq DELETE (url "http://localhost:8000/chats/" chatId)
                   NoBody) ;;
     setState (setStore (deleteChat_update chatId)))
    (fun error => console_error (lit "Error deleting chat:") error).

Definition deleteFolder (folderId : jsstring) : chatM unit :=
  try_catch
    (_ <- fetch net
            (mkReq DELETE (url "http://localhost:8000/folders/" folderId)
                   NoBody) ;;
     setState (setStore (deleteFolder_update folderId)))
    (fun error => console_error (lit "Error deleting folder:") error).

Definition toggleFolder (folderId : jsstring) (c : ChatComponent)
  : ChatComponent :=
  setStore (toggleFolder_update folderId) c.

Definition handleDragStart (chatId : jsstring) (c : ChatComponent)
  : ChatComponent :=
  setDraggedChatId (Some chatId) c.

Definition handleDrop (targetFolderId : option jsstring)
    (c : ChatComponent) : ChatComponent :=
  match draggedChatId c with
  | Some dragged =>
      if negb (truthy dragged) then c
      else
        setDraggedChatId None
          (setStore (moveChat_update dragged targetFolderId) c)
  | None => c
  end.

End ChatHandlers.


(** ** DocumentUpload.tsx *)

Record UploadError := mkUploadError {
  filename : jsstring;
  error : jsstring
}.

Record Progress := mkProgress { current : nat; total : nat }.

(** The component's state, together with the [value] of the file input
    the change event came from. *)
Record UploadComponent := mkUpload {
  uploading : bool;
  documents : list jsstring;
  deletingFile : option jsstring;
  uploadErrors : list UploadError;
  progress : option Progress;
  fileInputValue : jsstring
}.

Definition setUploading (b : bool) (u : UploadComponent) : UploadComponent :=
  mkUpload b (documents u) (deletingFile u) (uploadErrors u) (progress u)
           (fileInputValue u).
Definition setDocuments (d : list jsstring) (u : UploadComponent)
  : UploadComponent :=
  mkUpload (uploading u) d (deletingFile u) (uploadErrors u) (progress u)
           (fileInputValue u).
Definition setDeletingFile (d : option jsstring) (u : UploadComponent)
  : UploadComponent :=
  mkUpload (uploading u) (documents u) d (uploadErrors u) (progress u)
           (fileInputValue u).
Definition setUploadErrors (f : list UploadError -> list UploadError)
    (u : UploadComponent) : UploadComponent :=
  mkUpload (uploading u) (documents u) (deletingFile u) (f (uploadErrors u))
           (progress u) (fileInputValue u).
Definition setProgress (f : option Progress -> option Progress)
    (u : UploadComponent) : UploadComponent :=
  mkUpload (uploading u) (documents u) (deletingFile u) (uploadErrors u)
           (f (progress u)) (fileInputValue u).
Definition setFileInputValue (v : jsstring) (u : UploadComponent)
  : UploadComponent :=
  mkUpload (uploading u) (documents u) (deletingFile u) (uploadErrors u)
           (progress u) v.

Definition uploadM := M UploadComponent.

Section UploadHandlers.
Variable net : nat -> Request -> FetchResult.

(** The prop of the component. *)
Variable folderId : option jsstring.

(** [`...${folderId}...`] once [folderId] is known to be truthy. *)
Definition folderIdText : jsstring :=
  match folderId with Some f => f | None => lit "null" end.

Definition loadDocuments : uploadM unit :=
  if negb (truthy_opt folderId) then ret tt
  else
    try_catch
      (response <- fetch net
                     (mkReq GET
                        (lit "http://localhost:8000/folders/"
                         ++ folderIdText ++ lit "/documents")
                        NoBody) ;;
       if fst response
       then (data <- json (snd response) ;;
             setState (setDocuments (data_documents data)))
       else ret tt)
      (fun error => console_error (lit "Error loading documents:") error).

(** [errorData.detail || "Upload failed"] *)
Definition detail_or_default (d : JsonData) : jsstring :=
  match data_detail d with
  | Some m => if truthy m then m else lit "Upload failed"
  | None => lit "Upload failed"
  end.

(** The updater [(prev) => [...prev, { filename, error }]]. *)
Definition addError (name message : jsstring)
    (prev : list UploadError) : list UploadError :=
  prev ++ [mkUploadError name message].

(** The updater
    [(prev) => prev ? { ...prev, current: prev.current + 1 } : null]. *)
Definition advance (prev : option Progress) : option Progress :=
  match prev with
  | Some p => Some (mkProgress (current p + 1) (total p))
  | None => None
  end.

(** One turn of the [for] loop; the [continue] of the non-success branch
    is the branch that skips [setProgress]. *)
Definition uploadOne (file : File) : uploadM unit :=
  try_catch
    (response <- fetch net
                   (mkReq POST
                      (lit "http://localhost:8000/upload/" ++ folderIdText)
                      (FormData file)) ;;
     if negb (fst response)
     then (errorData <- json (snd response) ;;
           setState
             (setUploadErrors
                (addError (file_name file) (detail_or_default errorData))))
     else setState (setProgress advance))
    (fun _ =>
       setState
         (setUploadErrors (addError (file_name file) (lit "Upload failed")))).

Fixpoint uploadLoop (files : list File) : uploadM unit :=
  match files with
  | [] => ret tt
  | file :: rest => uploadOne file ;; uploadLoop rest
  end.

(** [handleFileUpload]; [targetFiles] is [e.target.files]. *)
Definition handleFileUpload (targetFiles : option (list File))
  : uploadM unit :=
  match targetFiles with
  | None => ret tt
  | Some files =>
      if (length files =? 0) || negb (truthy_opt folderId) then ret tt
      else
        setState (setUploading true) ;;
        setState (setUploadErrors (fun _ => [])) ;;
        setState
          (setProgress (fun _ => Some (mkProgress 0 (length files)))) ;;
        try_finally
          (uploadLoop files ;;
           loadDocuments)
          (setState (setUploading false) ;;
           setState (setProgress (fun _ => None)) ;;
           setState (setFileInputValue (lit "")))
  end.

End UploadHandlers.

Section UploadDeleteFile.
Variable net : nat -> Request -> FetchResult.
Variable folderId : option jsstring.

(** [await response.text()]: the raw text of a body, of which the model of
    a response keeps the parsed fields only. *)
Variable responseText : option JsonData -> jsstring.

Definition deleteFileRequest (fid name : jsstring) : Request :=
  mkReq DELETE
        (lit "http://localhost:8000/folders/" ++ fid ++ lit "/files/" ++ name)
        NoBody.

(** [handleDeleteFile]; the text of a refused delete goes to the console
    as the message of the logged value. *)
Definition handleDeleteFile (name : jsstring) : uploadM unit :=
  if negb (truthy_opt folderId) then ret tt
  else
    try_finally
      (try_catch
         (setState (setDeletingFile (Some name)) ;;
          response <- fetch net
                        (deleteFileRequest (folderIdText folderId) name) ;;
          if fst response then loadDocuments net folderId
          else console_error (lit "Failed to delete file:")
                             (ErrorMsg (responseText (snd response))))
         (fun error => console_error (lit "Error deleting file:") error))
      (setState (setDeletingFile None)).

End UploadDeleteFile.

(** ** Chat.tsx: what the sidebar renders *)

(** [store.chats.filter((chat) => !chat.folderId)]: the unfiled list. *)
Definition unfiledChats (s : ChatStore) : list Chat :=
  filter (fun chat => negb (truthy_opt (chat_folderId chat))) (chats s).

(** [store.chats.filter((chat) => chat.folderId === folder.id)]: the list
    under a folder. *)
Definition chatsOfFolder (folder : Folder) (s : ChatStore) : list Chat :=
  filter (fun chat => opt_eqb (chat_folderId chat) (Some (folder_id folder)))
         (chats s).

(** [folder.isExpanded] as a condition: whether the folder shows its
    chats and its upload panel. *)
Definition shownExpanded (folder : Folder) : bool :=
  match folder_isExpanded folder with
  | Some b => b
  | None => false
  end.

(** [disabled={isLoading || !store.currentChatId}] of the input and of
    the submit button. *)
Definition formDisabled (c : ChatComponent) : bool :=
  isLoading c || negb (truthy_opt (currentChatId (store c))).

(** What renaming folder [f] to [n] may change in a folder. *)
Definition renamed_from (f n : jsstring) (x y : Folder) : Prop :=
  folder_id y = folder_id x
  /\ folder_timestamp y = folder_timestamp x
  /\ folder_isExpanded y = folder_isExpanded x
  /\ (folder_id x = f -> folder_name y = n)
  /\ (folder_id x <> f -> y = x).

(** What moving chat [i] to [target] may change in a chat. *)
Definition moved_from (i : jsstring) (target : option jsstring)
    (x y : Chat) : Prop :=
  chat_id y = chat_id x
  /\ chat_title y = chat_title x
  /\ chat_messages y = chat_messages x
  /\ chat_timestamp y = chat_timestamp x
  /\ (chat_id x = i -> chat_folderId y = target)
  /\ (chat_id x <> i -> y = x).

(** Two folders that differ at most in how the expansion flag is stored,
    not in what it shows. *)
Definition same_shown (x y : Folder) : Prop :=
  folder_id y = folder_id x
  /\ folder_name y = folder_name x
  /\ folder_timestamp y = folder_timestamp x
  /\ shownExpanded y = shownExpanded x.


(** ** Predicates and sample stores used by the statements *)

(** What one application of the toggle may change in a folder: nothing
    when the id differs, and nothing but the flag otherwise. *)
Definition toggled_from (folderId : jsstring) (x y : Folder) : Prop :=
  folder_id y = folder_id x
  /\ folder_name y = folder_name x
  /\ folder_timestamp y = folder_timestamp x
  /\ (folder_id x <> folderId -> y = x).

(** A store with one folder, saved without the
    optional flag. *)
Definition store_flag_absent : ChatStore :=
  mkStore [] [mkFolder (lit "1") (lit "notes") 0%N None] None None.

(** Sample data: two chats, the first one selected, and a folder holding
    the second. *)
Definition chat_a : Chat :=
  mkChat (lit "1700000000002") (lit "New Chat") [] 1700000000002%N None.
Definition chat_b : Chat :=
  mkChat (lit "1700000000001") (lit "hello")
         [mkMessage user (lit "hello") None;
          mkMessage assistant (lit "hi") None]
         1700000000001%N (Some (lit "1700000000000")).
Definition folder_f : Folder :=
  mkFolder (lit "1700000000000") (lit "notes") 1700000000000%N (Some true).

Definition store_ab : ChatStore :=
  mkStore [chat_a; chat_b] [folder_f] (Some (chat_id chat_a)) None.
Definition store_a : ChatStore :=
  mkStore [chat_a] [] (Some (chat_id chat_a)) None.

Definition component_of (s : ChatStore) : ChatComponent :=
  mkChatComponent false (lit "") false s (lit "") None None.

(** Oracles: a backend that answers every request with a success status
    and an empty body, and one that answers every request with a
    non-success status. *)
Definition net_ok : nat -> Request -> FetchResult :=
  fun _ _ => Response true None.
Definition net_status_error : nat -> Request -> FetchResult :=
  fun _ _ => Response false None.
Definition net_down : nat -> Request -> FetchResult :=
  fun _ _ => NetworkFailure.

(** The store a handler leaves behind. *)
Definition store_after {A} (r : Outcome A * World ChatComponent) : ChatStore :=
  store (comp (snd r)).


(** The requests the delete handlers send. *)
Definition deleteChatRequest (chatId : jsstring) : Request :=
  mkReq DELETE (url "http://localhost:8000/chats/" chatId) NoBody.
Definition deleteFolderRequest (folderId : jsstring) : Request :=
  mkReq DELETE (url "http://localhost:8000/folders/" folderId) NoBody.


(** What deleting folder [F] may change in a chat: a chat filed under [F]
    loses its [folderId] and nothing else, any other chat is unchanged. *)
Definition unfiled_from (F : jsstring) (x y : Chat) : Prop :=
  chat_id y = chat_id x
  /\ chat_title y = chat_title x
  /\ chat_messages y = chat_messages x
  /\ chat_timestamp y = chat_timestamp x
  /\ (chat_folderId x = Some F -> chat_folderId y = None)
  /\ (chat_folderId x <> Some F -> y = x).


(** [JSON.stringify] of the empty store ([34] is the double quote). *)
Definition quoted (s : string) : jsstring := [34%N] ++ lit s ++ [34%N].
Definition emptyStore_json : jsstring :=
  lit "{" ++ quoted "chats" ++ lit ":[]," ++ quoted "folders" ++ lit ":[],"
  ++ quoted "currentChatId" ++ lit ":null,"
  ++ quoted "currentFolderId" ++ lit ":null}".

(** A parser to run the hydration on: it reads the serialized empty store
    and rejects every other text, which is what [JSON.parse] does on the
    serialized empty store and on every text that is not JSON. *)
Definition JSON_parse_sample (text : jsstring) : option ChatStore :=
  if str_eqb text emptyStore_json then Some emptyStore else None.

(** [JSON.stringify] of a store without chats or folders whose selection
    still names a chat. *)
Definition selectionStore : ChatStore :=
  mkStore [] [] (Some (lit "1700000000002")) None.
Definition selectionStore_json : jsstring :=
  lit "{" ++ quoted "chats" ++ lit ":[]," ++ quoted "folders" ++ lit ":[],"
  ++ quoted "currentChatId" ++ lit ":" ++ quoted "1700000000002" ++ lit ","
  ++ quoted "currentFolderId" ++ lit ":null}".

(** A parser that reads the two serialized stores above and rejects every
    other text. *)
Definition JSON_parse_stores (text : jsstring) : option ChatStore :=
  if str_eqb text selectionStore_json then Some selectionStore
  else JSON_parse_sample text.


(** The request [handleSubmit] sends for the chat [currentChat] from the
    render [c]. *)
Definition sendRequest (currentChat : Chat) (c : ChatComponent) : Request :=
  mkReq POST
        (url "http://localhost:8000/chat/"
             match chat_folderId currentChat with
             | Some f => if truthy f then f else lit "default"
             | None => lit "default"
             end)
        (ChatBody (input c) (currentChatId (store c))).

(** A send fails when the call throws or the status is not a success. *)
Definition send_failed (r : FetchResult) : bool :=
  match r with
  | NetworkFailure => true
  | Response ok _ => negb ok
  end.


(** A render with the first chat of [store_ab] selected and a text typed
    in, trailing blanks included. *)
Definition component_typing : ChatComponent :=
  mkChatComponent false (lit "hello  ") false store_ab (lit "") None None.

(** The requests of the upload panel for the folder [fid]. *)
Definition uploadRequest (fid : jsstring) (file : File) : Request :=
  mkReq POST (lit "http://localhost:8000/upload/" ++ fid) (FormData file).
Definition listRequest (fid : jsstring) : Request :=
  mkReq GET (lit "http://localhost:8000/folders/" ++ fid ++ lit "/documents")
        NoBody.

(** An upload fails when the call throws or the status is not a success. *)
Definition upload_failed (r : FetchResult) : bool :=
  match r with
  | NetworkFailure => true
  | Response ok _ => negb ok
  end.

(** Sample batch, and a backend that refuses the second request it gets. *)
Definition file1 : File := mkFile (lit "a.pdf").
Definition file2 : File := mkFile (lit "b.pdf").
Definition file3 : File := mkFile (lit "c.txt").
Definition net_second_fails : nat -> Request -> FetchResult :=
  fun n _ =>
    if n =? 1 then Response false (Some (mkJson (lit "") (Some (lit "too large")) []))
    else Response true (Some (mkJson (lit "") None [lit "a.pdf"; lit "c.txt"])).
Definition upload_idle : UploadComponent :=
  mkUpload false [] None [] None (lit "C:/fakepath/a.pdf").

(** The last state committed in a trace, [d] if there is none. *)
Definition last_commit {S} (t : list (Event S)) (d : S) : S :=
  last (commits t) d.


(** The part of a trace that precedes its [n]-th request, counting
    from 0: what had happened when that request was sent. *)
Fixpoint before_fetch {S} (n : nat) (t : list (Event S)) : list (Event S) :=
  match t with
  | [] => []
  | EvFetch r :: t' =>
      match n with
      | 0 => []
      | Datatypes.S n' => EvFetch r :: before_fetch n' t'
      end
  | e :: t' => e :: before_fetch n t'
  end.


(** A run of store operations, oldest first. *)
Definition apply_ops (ops : list StoreOp) (s : ChatStore) : ChatStore :=
  fold_left (fun acc op => apply_op op acc) ops s.


(** What the assistant message of an exchange carries for a given answer
    of the backend: the [response] field of a success with a readable
    body, the apology for anything else. *)
Definition replyText (r : FetchResult) : jsstring :=
  match r with
  | Response true (Some d) => data_response d
  | _ => apology
  end.

(** Whether the answer lets [handleSubmit] reach the title update. *)
Definition replied (r : FetchResult) : bool :=
  match r with
  | Response true (Some _) => true
  | _ => false
  end.


(** A backend that answers every request with a success and a body. *)
Definition net_reply : nat -> Request -> FetchResult :=
  fun _ _ => Response true (Some (mkJson (lit "hi there") None [lit "a.pdf"])).


Definition folder_ids (s : ChatStore) : list jsstring :=
  map folder_id (folders s).

(** The id an operation generates, if it generates one for a folder. *)
Definition fresh_folder_id (op : StoreOp) : option jsstring :=
  match op with
  | OpCreateFolder now _ _ => Some (toString now)
  | _ => None
  end.

(** [f] is the id of a folder of the store. *)
Definition has_folder (s : ChatStore) (f : jsstring) : bool :=
  existsb (str_eqb f) (folder_ids s).

(** Every chat filed under a folder is filed under one the store has. *)
Definition refs_resolve (s : ChatStore) : bool :=
  forallb (fun chat =>
             match chat_folderId chat with
             | Some f => has_folder s f
             | None => true
             end)
          (chats s).

(** The folder an operation files a chat under, if any, exists. *)
Definition target_exists (op : StoreOp) (s : ChatStore) : bool :=
  match op with
  | OpCreateChat _ _ (Some f) => has_folder s f
  | OpMoveChat _ (Some f) => has_folder s f
  | _ => true
  end.


(** ** The upload batch as a fold over the files *)

(** The error entry an upload leaves for the answer it got, if any. *)
Definition uploadErrorOf (file : File) (r : FetchResult)
  : option UploadError :=
  match r with
  | Response true _ => None
  | Response false (Some d) =>
      Some (mkUploadError (file_name file) (detail_or_default d))
  | _ => Some (mkUploadError (file_name file) (lit "Upload failed"))
  end.

(** The error entries of a batch whose first request is the [k]-th, in
    the order of the files. *)
Fixpoint batchErrors (net : nat -> Request -> FetchResult) (fid : jsstring)
    (k : nat) (files : list File) : list UploadError :=
  match files with
  | [] => []
  | file :: rest =>
      match uploadErrorOf file (net k (uploadRequest fid file)) with
      | Some e => e :: batchErrors net fid (S k) rest
      | None => batchErrors net fid (S k) rest
      end
  end.

(** The number of files of the batch whose upload succeeded. *)
Fixpoint batchSuccesses (net : nat -> Request -> FetchResult)
    (fid : jsstring) (k : nat) (files : list File) : nat :=
  match files with
  | [] => 0
  | file :: rest =>
      match uploadErrorOf file (net k (uploadRequest fid file)) with
      | Some _ => batchSuccesses net fid (S k) rest
      | None => S (batchSuccesses net fid (S k) rest)
      end
  end.

(** The counter after [n] more successes. *)
Definition advanced (n : nat) (p : option Progress) : option Progress :=
  Nat.iter n advance p.

(** ** components/DocumentUpload.tsx: the panel without per-file errors

    This version of the panel keeps two pieces of state and gives up on
    the batch at the first upload that fails. *)

Module Legacy.

Record Panel := mkPanel {
  uploading : bool;
  documents : list jsstring
}.

Definition setUploading (b : bool) (p : Panel) : Panel :=
  mkPanel b (documents p).
Definition setDocuments (f : list jsstring -> list jsstring) (p : Panel)
  : Panel :=
  mkPanel (uploading p) (f (documents p)).

Section Handlers.
Variable net : nat -> Request -> FetchResult.
Variable folderId : option jsstring.

(** [data.filename]: a field of the parsed body that the record of the
    fields read elsewhere does not carry. *)
Variable data_filename : JsonData -> jsstring.

(** The body of the [for ... of] loop: the first throw leaves the loop. *)
Fixpoint uploadLoop (files : list File) : M Panel unit :=
  match files with
  | [] => ret tt
  | file :: rest =>
      response <- fetch net
                    (mkReq POST
                       (lit "http://localhost:8000/upload/"
                        ++ folderIdText folderId)
                       (FormData file)) ;;
      if negb (fst response) then throw (ErrorMsg (lit "Upload failed"))
      else
        data <- json (snd response) ;;
        setState (setDocuments (fun prev => prev ++ [data_filename data])) ;;
        uploadLoop rest
  end.

Definition handleFileUpload (targetFiles : option (list File))
  : M Panel unit :=
  match targetFiles with
  | None => ret tt
  | Some files =>
      if (length files =? 0) || negb (truthy_opt folderId) then ret tt
      else
        setState (setUploading true) ;;
        try_finally
          (try_catch
             (uploadLoop files)
             (fun error => console_error (lit "Upload error:") error))
          (setState (setUploading false))
  end.

End Handlers.

(** The files whose upload is requested, the first request being the
    [k]-th: all of them up to and including the first one that is not
    answered by a success with a readable body. *)
Fixpoint requested (net : nat -> Request -> FetchResult) (fid : jsstring)
    (k : nat) (files : list File) : list File :=
  match files with
  | [] => []
  | file :: rest =>
      file :: (if replied (net k (uploadRequest fid file))
               then requested net fid (S k) rest
               else [])
  end.

(** The names stored for the files uploaded before the batch stopped. *)
Fixpoint stored (net : nat -> Request -> FetchResult) (fid : jsstring)
    (data_filename : JsonData -> jsstring)
    (k : nat) (files : list File) : list jsstring :=
  match files with
  | [] => []
  | file :: rest =>
      match net k (uploadRequest fid file) with
      | Response true (Some d) =>
          data_filename d :: stored net fid data_filename (S k) rest
      | _ => []
      end
  end.

End Legacy.

(** ** FileList.tsx *)

Module FileList.

Record State := mkState {
  files : list jsstring;
  isDeleting : option jsstring
}.

Definition setFiles (f : list jsstring) (s : State) : State :=
  mkState f (isDeleting s).
Definition setIsDeleting (d : option jsstring) (s : State) : State :=
  mkState (files s) d.

(** [if (files.length === 0) return null] *)
Definition rendersNothing (s : State) : bool := length (files s) =? 0.

Section Handlers.
Variable net : nat -> Request -> FetchResult.

(** The props: [folderId] is a plain string here, and [onFileDeleted] is
    optional; what the parent does in it is any computation. *)
Variable folderId : jsstring.
Variable onFileDeleted : option (M State unit).

(** [await response.text()], as for the upload panel. *)
Variable responseText : option JsonData -> jsstring.

Definition fetchFiles : M State unit :=
  try_catch
    (response <- fetch net (listRequest folderId) ;;
     if fst response
     then (data <- json (snd response) ;;
           setState (setFiles (data_documents data)))
     else ret tt)
    (fun error => console_error (lit "Error fetching files:") error).

Definition deleteFile (name : jsstring) : M State unit :=
  try_finally
    (try_catch
       (setState (setIsDeleting (Some name)) ;;
        response <- fetch net (deleteFileRequest folderId name) ;;
        if fst response
        then (fetchFiles ;;
              match onFileDeleted with
              | Some callback => callback
              | None => ret tt
              end)
        else console_error (lit "Failed to delete file:")
                           (ErrorMsg (responseText (snd response))))
       (fun error => console_error (lit "Error deleting file:") error))
    (setState (setIsDeleting None)).

End Handlers.

End FileList.

(** ** Properties *)

Unset Implicit Arguments.

Lemma str_eqb_spec (a b : jsstring) : reflect (a = b) (str_eqb a b).
Proof.
  revert b; induction a as [|x a IH]; intros [|y b]; simpl;
    try (constructor; congruence).
  destruct (N.eqb_spec x y) as [->|Hxy]; simpl.
  - destruct (IH b) as [->|Hab]; constructor; congruence.
  - constructor; congruence.
Qed.

Lemma str_eqb_refl (a : jsstring) : str_eqb a a = true.
Proof. destruct (str_eqb_spec a a); congruence. Qed.

Lemma str_eqb_eq (a b : jsstring) : str_eqb a b = true <-> a = b.
Proof. destruct (str_eqb_spec a b); split; congruence. Qed.

Lemma str_eqb_neq (a b : jsstring) : str_eqb a b = false <-> a <> b.
Proof. destruct (str_eqb_spec a b); split; congruence. Qed.

(** C7: the derived title has at most 33 code units (30 plus the three of
    the ellipsis marker), is the input itself when the input has at most 30
    code units, and is otherwise its first 30 code units followed by the
    marker. *)
Theorem deriveTitle_spec (text : jsstring) :
  length (deriveTitle text) <= 33
  /\ deriveTitle text =
     (if length text <=? 30 then text else firstn 30 text ++ lit "...").
Proof.
  unfold deriveTitle, slice0.
  destruct (Nat.ltb_spec 30 (length text)) as [Hlt|Hle].
  - destruct (Nat.leb_spec (length text) 30) as [Hle'|_]; [lia|].
    split; [|reflexivity].
    rewrite length_app, length_firstn.
    change (length (lit "...")) with 3. lia.
  - destruct (Nat.leb_spec (length text) 30) as [_|Hlt']; [|lia].
    change (lit "") with (@nil code_unit).
    rewrite app_nil_r, firstn_all2 by exact Hle. split; [lia|reflexivity].
Qed.

(** *** The store updaters *)

Lemma map_id_on {A} (f : A -> A) (l : list A) :
  (forall x, In x l -> f x = x) -> map f l = l.
Proof.
  induction l as [|x l IH]; simpl; intros H; [reflexivity|].
  rewrite H by now left. f_equal. apply IH. intros y Hy. apply H. now right.
Qed.

Lemma store_eta (s : ChatStore) :
  mkStore (chats s) (folders s) (currentChatId s) (currentFolderId s) = s.
Proof. now destruct s. Qed.

(** C8: the state update of a move, applied twice, gives the snapshot it
    gives applied once. *)
Theorem moveChat_update_idempotent (c : jsstring) (t : option jsstring)
    (s : ChatStore) :
  moveChat_update c t (moveChat_update c t s) = moveChat_update c t s.
Proof.
  unfold moveChat_update, store_with_chats. simpl. f_equal.
  rewrite map_map. apply map_ext. intros chat.
  destruct (str_eqb (chat_id chat) c) eqn:E; simpl; rewrite E; reflexivity.
Qed.

(** *** Folder expansion *)

Lemma toggleFolder_update_frame (f : jsstring) (s : ChatStore) :
  chats (toggleFolder_update f s) = chats s
  /\ currentChatId (toggleFolder_update f s) = currentChatId s
  /\ currentFolderId (toggleFolder_update f s) = currentFolderId s
  /\ Forall2 (toggled_from f) (folders s) (folders (toggleFolder_update f s)).
Proof.
  repeat split. simpl.
  induction (folders s) as [|x l IH]; simpl; constructor; [|exact IH].
  destruct (str_eqb_spec (folder_id x) f) as [E|E]; unfold toggled_from; simpl;
    repeat split; congruence.
Qed.

Lemma toggle_twice_folder (x : Folder) :
  folder_isExpanded x <> None ->
  folder_with_isExpanded
    (not_isExpanded (folder_with_isExpanded (not_isExpanded x) x))
    (folder_with_isExpanded (not_isExpanded x) x) = x.
Proof.
  destruct x as [i n t [[|]|]]; unfold folder_with_isExpanded, not_isExpanded;
    simpl; congruence.
Qed.

(** C10, as stated, fails: a folder whose optional [isExpanded] is absent
    reads as collapsed, the first toggle sets the flag to [true], the
    second to [false], and the snapshot is not the original one. *)
Lemma toggleFolder_twice_counterexample :
  toggleFolder_update (lit "1")
    (toggleFolder_update (lit "1") store_flag_absent)
  <> store_flag_absent.
Proof. vm_compute. discriminate. Qed.

(** C10, amended: in every store, one application of the toggle leaves
    the chats, both selection ids and every folder with another id
    unchanged, and changes nothing but the flag in a folder with id [f];
    and when every folder with id [f] carries its [isExpanded] flag, two
    applications of the toggle give back the original snapshot. *)
Theorem toggleFolder_update_involutive (f : jsstring) (s : ChatStore) :
  chats (toggleFolder_update f s) = chats s
  /\ currentChatId (toggleFolder_update f s) = currentChatId s
  /\ currentFolderId (toggleFolder_update f s) = currentFolderId s
  /\ Forall2 (toggled_from f) (folders s) (folders (toggleFolder_update f s))
  /\ ((forall x, In x (folders s) -> folder_id x = f ->
                 folder_isExpanded x <> None) ->
      toggleFolder_update f (toggleFolder_update f s) = s).
Proof.
  destruct (toggleFolder_update_frame f s) as (H1 & H2 & H3 & H4).
  split; [exact H1|]. split; [exact H2|]. split; [exact H3|].
  split; [exact H4|].
  intros Hflag.
  unfold toggleFolder_update, store_with_folders. simpl.
  rewrite map_map, map_id_on; [apply store_eta|].
  intros x Hx.
  destruct (str_eqb (folder_id x) f) eqn:E.
  - cbn [folder_with_isExpanded folder_id]. rewrite E.
    apply toggle_twice_folder. apply Hflag; [exact Hx|now apply str_eqb_eq].
  - now rewrite E.
Qed.

Lemma toggleFolder_update_involutive_witness :
  let s := mkStore [] [mkFolder (lit "1") (lit "notes") 0%N (Some true);
                       mkFolder (lit "2") (lit "todo") 0%N None] None None in
  toggleFolder_update (lit "1") (toggleFolder_update (lit "1") s) = s
  /\ Forall2 (toggled_from (lit "1")) (folders store_flag_absent)
             (folders (toggleFolder_update (lit "1") store_flag_absent))
  /\ chats (toggleFolder_update (lit "1") store_flag_absent)
     = chats store_flag_absent.
Proof.
  intros s.
  destruct (toggleFolder_update_involutive (lit "1") s)
    as (_ & _ & _ & _ & Htwice).
  destruct (toggleFolder_update_involutive (lit "1") store_flag_absent)
    as (Hchats & _ & _ & Hframe & _).
  split; [|split; [exact Hframe|exact Hchats]].
  apply Htwice.
  intros x [<-|[<-|[]]]; vm_compute; intros H1 H2; discriminate.
Defined.

(** *** Uniqueness of chat ids *)

Lemma map_chat_id_preserved (g : Chat -> Chat) (l : list Chat) :
  (forall c, chat_id (g c) = chat_id c) ->
  map chat_id (map g l) = map chat_id l.
Proof.
  intros Hg. rewrite map_map. apply map_ext. exact Hg.
Qed.

Lemma NoDup_map_filter {A B} (k : A -> B) (p : A -> bool) (l : list A) :
  NoDup (map k l) -> NoDup (map k (filter p l)).
Proof.
  induction l as [|x l IH]; simpl; intros H; [constructor|].
  inversion H as [|? ? Hnotin Hrest]; subst.
  destruct (p x); simpl; [|now apply IH].
  constructor; [|now apply IH].
  intros Hin. apply Hnotin.
  apply in_map_iff in Hin. destruct Hin as [y [Hy Hyin]].
  apply filter_In in Hyin. apply in_map_iff. exists y. tauto.
Qed.

Ltac same_ids :=
  unfold chat_ids; simpl; rewrite map_chat_id_preserved;
  [assumption | intros ?; simpl; match goal with
                                 | |- context [if ?b then _ else _] =>
                                     destruct b; reflexivity
                                 end].

(** C9: a store operation applied to a store whose chat ids are pairwise
    distinct gives a store whose chat ids are pairwise distinct, provided
    the id the operation generates, if any, is not the id of a chat
    already present. *)
Theorem apply_op_unique_chat_ids (op : StoreOp) (s : ChatStore) :
  NoDup (chat_ids s) ->
  (forall i, fresh_chat_id op = Some i -> ~ In i (chat_ids s)) ->
  NoDup (chat_ids (apply_op op s)).
Proof.
  intros Hnd Hfresh.
  destruct op; simpl; try assumption; try same_ids.
  - unfold chat_ids. simpl. constructor; [|exact Hnd].
    apply Hfresh. reflexivity.
  - unfold chat_ids. simpl. now apply NoDup_map_filter.
Qed.

Lemma apply_op_unique_chat_ids_witness :
  let s := mkStore [newChat 1700000000000%N 1700000000000%N None]
                   [] None None in
  let op := OpCreateChat 1700000000001%N 1700000000001%N None in
  NoDup (chat_ids (apply_op op s)).
Proof.
  intros s op.
  apply (apply_op_unique_chat_ids op s).
  - repeat constructor. intros [].
  - intros i Hi. injection Hi as <-. vm_compute. intros [H|[]]. discriminate H.
Defined.

(** *** Deleting a chat or a folder *)

(** A rejected [fetch] is caught: the handler ends normally, the state is
    the one it started from, and the error goes to the console. *)
Lemma deleteChat_transport_failure net chatId c :
  net 0 (deleteChatRequest chatId) = NetworkFailure ->
  run (deleteChat net chatId) c
  = (Ok tt, mkWorld c [EvFetch (deleteChatRequest chatId);
                       EvConsoleError (lit "Error deleting chat:") TypeError]).
Proof.
  intros H. unfold run, deleteChat, try_catch, bind, fetch. simpl.
  fold (deleteChatRequest chatId). rewrite H. reflexivity.
Qed.

Lemma deleteFolder_transport_failure net folderId c :
  net 0 (deleteFolderRequest folderId) = NetworkFailure ->
  run (deleteFolder net folderId) c
  = (Ok tt, mkWorld c [EvFetch (deleteFolderRequest folderId);
                       EvConsoleError (lit "Error deleting folder:")
                                      TypeError]).
Proof.
  intros H. unfold run, deleteFolder, try_catch, bind, fetch. simpl.
  fold (deleteFolderRequest folderId). rewrite H. reflexivity.
Qed.

(** Any response at all, whatever its status, lets the update run. *)
Lemma deleteChat_response net chatId c ok body :
  net 0 (deleteChatRequest chatId) = Response ok body ->
  run (deleteChat net chatId) c
  = (Ok tt,
     mkWorld (setStore (deleteChat_update chatId) c)
             [EvFetch (deleteChatRequest chatId);
              EvCommit (setStore (deleteChat_update chatId) c)]).
Proof.
  intros H. unfold run, deleteChat, try_catch, bind, fetch. simpl.
  fold (deleteChatRequest chatId). rewrite H. reflexivity.
Qed.

Lemma deleteFolder_response net folderId c ok body :
  net 0 (deleteFolderRequest folderId) = Response ok body ->
  run (deleteFolder net folderId) c
  = (Ok tt,
     mkWorld (setStore (deleteFolder_update folderId) c)
             [EvFetch (deleteFolderRequest folderId);
              EvCommit (setStore (deleteFolder_update folderId) c)]).
Proof.
  intros H. unfold run, deleteFolder, try_catch, bind, fetch. simpl.
  fold (deleteFolderRequest folderId). rewrite H. reflexivity.
Qed.

(** The handlers never end in an uncaught fault. *)
Lemma delete_handlers_total net i c :
  fst (run (deleteChat net i) c) = Ok tt
  /\ fst (run (deleteFolder net i) c) = Ok tt.
Proof.
  split.
  - destruct (net 0 (deleteChatRequest i)) eqn:E.
    + now rewrite (deleteChat_transport_failure net i c E).
    + now rewrite (deleteChat_response net i c ok body E).
  - destruct (net 0 (deleteFolderRequest i)) eqn:E.
    + now rewrite (deleteFolder_transport_failure net i c E).
    + now rewrite (deleteFolder_response net i c ok body E).
Qed.

(** The reselection reads the list before the filter. *)
Lemma deleteChat_update_reselects_from_prev chatId s :
  currentChatId s = Some chatId ->
  currentChatId (deleteChat_update chatId s) = firstChatId (chats s).
Proof.
  intros H. unfold deleteChat_update. simpl. rewrite H. simpl.
  now rewrite str_eqb_refl.
Qed.

(** When the deleted chat is not the first of the list, the first of the
    list is the first remaining chat. *)
Lemma deleteChat_update_not_first chatId c rest s :
  chats s = c :: rest ->
  chat_id c <> chatId ->
  currentChatId s = Some chatId ->
  firstChatId (chats (deleteChat_update chatId s))
  = currentChatId (deleteChat_update chatId s).
Proof.
  intros Hc Hne Hcur.
  rewrite (deleteChat_update_reselects_from_prev chatId s Hcur).
  unfold deleteChat_update. simpl. rewrite Hc. simpl.
  apply str_eqb_neq in Hne. now rewrite Hne.
Qed.

(** C1, on the code: deleting the selected chat when it is the first of
    the list (where [createNewChat] puts every new chat) removes it and
    leaves [currentChatId] at the id of the chat just removed, with one
    other chat remaining and with none. *)
Theorem deleteChat_selected_first_keeps_deleted_id :
  store_after (run (deleteChat net_ok (chat_id chat_a)) (component_of store_ab))
  = mkStore [chat_b] [folder_f] (Some (chat_id chat_a)) None
  /\ store_after (run (deleteChat net_ok (chat_id chat_a))
                      (component_of store_a))
     = mkStore [] [] (Some (chat_id chat_a)) None.
Proof. split; reflexivity. Qed.

(** C2, on the code: a delete request answered with a non-success status
    still removes the chat, and likewise the folder, whose chats are
    unfiled. *)
Theorem delete_status_error_still_removes :
  store_after (run (deleteChat net_status_error (chat_id chat_b))
                   (component_of store_ab))
  = mkStore [chat_a] [folder_f] (Some (chat_id chat_a)) None
  /\ store_after (run (deleteFolder net_status_error (folder_id folder_f))
                      (component_of store_ab))
     = mkStore [chat_a; chat_with_folderId None chat_b] []
               (Some (chat_id chat_a)) None.
Proof. split; reflexivity. Qed.

Lemma opt_eqb_eq (a b : option jsstring) : opt_eqb a b = true <-> a = b.
Proof.
  destruct a as [x|], b as [y|]; simpl; try (split; congruence).
  rewrite str_eqb_eq. split; congruence.
Qed.

Lemma opt_eqb_neq (a b : option jsstring) : opt_eqb a b = false <-> a <> b.
Proof.
  destruct (opt_eqb a b) eqn:E.
  - apply opt_eqb_eq in E. split; congruence.
  - split; [|reflexivity]. intros _ H. apply opt_eqb_eq in H. congruence.
Qed.

Lemma deleteFolder_update_chats F s :
  Forall2 (unfiled_from F) (chats s) (chats (deleteFolder_update F s)).
Proof.
  simpl. induction (chats s) as [|x l IH]; simpl; constructor; [|exact IH].
  destruct (opt_eqb (chat_folderId x) (Some F)) eqn:E; unfold unfiled_from.
  - apply opt_eqb_eq in E. simpl. repeat split; congruence.
  - apply opt_eqb_neq in E. repeat split; congruence.
Qed.

Lemma deleteFolder_update_folders F s :
  forall f, In f (folders (deleteFolder_update F s))
            <-> In f (folders s) /\ folder_id f <> F.
Proof.
  intros f. simpl. rewrite filter_In, negb_true_iff, str_eqb_neq. tauto.
Qed.

(** C5: after a [deleteFolder F] whose request succeeded, the handler has
    ended normally; no folder with id [F] is left and the folder list is
    the old one without the folders of id [F]; chat by chat, in the same
    order, a chat that was in [F] has [folderId] null and is otherwise the
    same (messages included), and every other chat is unchanged; both
    selection ids and the rest of the component state are unchanged. *)
Theorem deleteFolder_success net F c body :
  net 0 (deleteFolderRequest F) = Response true body ->
  let r := run (deleteFolder net F) c in
  fst r = Ok tt
  /\ (forall f, In f (folders (store_after r)) -> folder_id f <> F)
  /\ folders (store_after r)
     = filter (fun f => negb (str_eqb (folder_id f) F)) (folders (store c))
  /\ (forall f, In f (folders (store c)) -> folder_id f <> F ->
                In f (folders (store_after r)))
  /\ Forall2 (unfiled_from F) (chats (store c)) (chats (store_after r))
  /\ currentChatId (store_after r) = currentChatId (store c)
  /\ currentFolderId (store_after r) = currentFolderId (store c)
  /\ comp (snd r) = setStore (fun _ => store_after r) c.
Proof.
  intros H r. subst r.
  rewrite (deleteFolder_response net F c true body H).
  unfold store_after. cbn [fst snd comp setStore store].
  split; [reflexivity|]. split.
  { intros f Hf. now apply (deleteFolder_update_folders F (store c)) in Hf. }
  split; [reflexivity|]. split.
  { intros f Hf Hne. now apply (deleteFolder_update_folders F (store c)). }
  split; [apply deleteFolder_update_chats|].
  repeat split.
Qed.

Lemma deleteFolder_success_witness :
  let r := run (deleteFolder net_ok (folder_id folder_f))
               (component_of store_ab) in
  fst r = Ok tt
  /\ (forall f, In f (folders (store_after r)) ->
                folder_id f <> folder_id folder_f)
  /\ Forall2 (unfiled_from (folder_id folder_f))
             [chat_a; chat_b] (chats (store_after r)).
Proof.
  intros r.
  destruct (deleteFolder_success net_ok (folder_id folder_f)
              (component_of store_ab) None eq_refl)
    as (H1 & H2 & _ & _ & H5 & _).
  split; [exact H1|]. split; [exact H2|exact H5].
Defined.

(** *** Hydration at startup *)

(** The initializer absorbs a failed parse and never throws. *)
Lemma storeInitializer_total JSON_parse savedStore :
  exists v w, run (storeInitializer JSON_parse savedStore) tt = (Ok v, w).
Proof.
  unfold run, storeInitializer, try_catch, bind, parse.
  destruct savedStore as [text|]; simpl; [|do 2 eexists; reflexivity].
  destruct (truthy text); simpl; [|do 2 eexists; reflexivity].
  destruct (JSON_parse text); simpl; do 2 eexists; reflexivity.
Qed.

Lemma storeInitializer_fallback JSON_parse savedStore :
  (savedStore = None
   \/ exists text, savedStore = Some text
                   /\ (truthy text = false \/ JSON_parse text = None)) ->
  fst (run (storeInitializer JSON_parse savedStore) tt) = Ok emptyStore.
Proof.
  unfold run, storeInitializer, try_catch, bind, parse.
  intros [->|(text & -> & [H|H])]; simpl; [reflexivity| |].
  - now rewrite H.
  - destruct (truthy text); [|reflexivity]. now rewrite H.
Qed.

(** With the slot absent (or empty), startup ends normally on the empty
    store. *)
Lemma startup_absent JSON_parse savedDark :
  fst (startup JSON_parse savedDark None) = Ok tt
  /\ store (comp (snd (startup JSON_parse savedDark None))) = emptyStore.
Proof. split; reflexivity. Qed.

(** C3, on the code: when the slot holds a non-empty text that does not
    parse, the initializer falls back to the empty store, and then the
    mount effect parses the same text again outside any [try] and throws:
    startup ends in an uncaught [SyntaxError]. *)
Theorem startup_unparseable_throws JSON_parse savedDark text :
  truthy text = true ->
  JSON_parse text = None ->
  fst (run (storeInitializer JSON_parse (Some text)) tt) = Ok emptyStore
  /\ fst (startup JSON_parse savedDark (Some text)) = Throw SyntaxError.
Proof.
  intros Ht Hp. split.
  - apply storeInitializer_fallback. right. exists text. tauto.
  - unfold startup.
    rewrite (storeInitializer_fallback JSON_parse (Some text))
      by (right; exists text; tauto).
    unfold run, mountEffect, bind, parse. simpl. rewrite Ht, Hp. reflexivity.
Qed.

Lemma startup_unparseable_throws_witness :
  fst (startup JSON_parse_sample (Some (lit "true")) (Some (lit "{")))
  = Throw SyntaxError.
Proof.
  apply (startup_unparseable_throws JSON_parse_sample (Some (lit "true"))
           (lit "{")); reflexivity.
Defined.

(** *** Sending a message *)

Lemma find_map_preserved {A} (p : A -> bool) (g : A -> A) (l : list A) :
  (forall x, p (g x) = p x) ->
  find p (map g l) = option_map g (find p l).
Proof.
  intros Hp. induction l as [|x l IH]; simpl; [reflexivity|].
  rewrite Hp. destruct (p x); [reflexivity|exact IH].
Qed.

Lemma getCurrentChat_selected s cur :
  getCurrentChat s = Some cur ->
  exists i, currentChatId s = Some i /\ truthy i = true /\ chat_id cur = i
            /\ In cur (chats s).
Proof.
  unfold getCurrentChat. destruct (currentChatId s) as [i|]; [|discriminate].
  destruct (truthy i) eqn:Ti; simpl; [|discriminate].
  intros H. apply find_some in H. destruct H as [Hin Hid].
  apply str_eqb_eq in Hid. exists i. tauto.
Qed.

(** The appended exchange lands in the current chat: same chat, its
    messages followed by the two new ones. *)
Lemma getCurrentChat_appendExchange s cur u a :
  getCurrentChat s = Some cur ->
  getCurrentChat (appendExchange (currentChatId s) u a s)
  = Some (chat_with_messages
            (chat_messages cur
             ++ [mkMessage user u None; mkMessage assistant a None]) cur).
Proof.
  intros H. unfold getCurrentChat in *. simpl.
  destruct (currentChatId s) as [i|]; [|discriminate].
  destruct (truthy i); simpl in *; [|discriminate].
  rewrite find_map_preserved.
  - rewrite H. simpl.
    apply find_some in H. destruct H as [_ H]. now rewrite H.
  - intros x. simpl.
    destruct (str_eqb (chat_id x) i) eqn:E; simpl; rewrite ?E; reflexivity.
Qed.

(** C4: a send that fails, from a render with a current chat and an input
    that is not blank, ends normally.  Before the request there is one
    commit, which leaves the store and the input as they were; after it,
    one commit gives the current chat its former messages followed by
    exactly two more, the user message carrying the input as it is and
    the assistant message carrying the apology; the last two commits keep
    that store; at the end the input is empty and the loading flag off. *)
Theorem handleSubmit_failure net c cur :
  getCurrentChat (store c) = Some cur ->
  truthy (trim (input c)) = true ->
  send_failed (net 0 (sendRequest cur c)) = true ->
  let r := run (handleSubmit net) c in
  let cur' :=
    mkChat (chat_id cur) (chat_title cur)
           (chat_messages cur
            ++ [mkMessage user (input c) None;
                mkMessage assistant
                  (lit "Sorry, there was an error processing your request.")
                  None])
           (chat_timestamp cur) (chat_folderId cur) in
  fst r = Ok tt
  /\ (exists e c1 c2 c3,
        trace (snd r)
        = [EvCommit c1; EvFetch (sendRequest cur c);
           EvConsoleError (lit "Error:") e;
           EvCommit c2; EvCommit c3; EvCommit (comp (snd r))]
        /\ store c1 = store c /\ input c1 = input c
        /\ getCurrentChat (store c2) = Some cur' /\ input c2 = input c
        /\ store c3 = store c2
        /\ store (comp (snd r)) = store c2)
  /\ getCurrentChat (store (comp (snd r))) = Some cur'
  /\ length (chat_messages cur') = length (chat_messages cur) + 2
  /\ input (comp (snd r)) = lit ""
  /\ isLoading (comp (snd r)) = false.
Proof.
  intros Hcur Hin Hfail r cur'.
  pose (c1 := setIsLoading true c).
  pose (c2 := setStore (appendExchange (currentChatId (store c)) (input c)
                                       apology) c1).
  pose (c3 := setIsLoading false c2).
  pose (c4 := setInput (lit "") c3).
  assert (Hrun : exists e,
             r = (Ok tt,
                  mkWorld c4 [EvCommit c1; EvFetch (sendRequest cur c);
                              EvConsoleError (lit "Error:") e;
                              EvCommit c2; EvCommit c3; EvCommit c4])).
  { subst r. unfold run, handleSubmit, bind at 1, getState.
    cbn [comp]. rewrite Hcur, Hin. cbn [negb].
    unfold bind, try_catch, setState, fetch. cbn [comp trace app fetches
      flat_map length input store setIsLoading].
    change (mkReq POST _ _) with (sendRequest cur c).
    destruct (net 0 (sendRequest cur c)) as [|ok body]; simpl in Hfail.
    - exists TypeError. reflexivity.
    - destruct ok; [discriminate|]. cbn [fst negb throw].
      exists (ErrorMsg (lit "Failed to get response")). reflexivity. }
  assert (Happ : getCurrentChat (store c2) = Some cur').
  { exact (getCurrentChat_appendExchange (store c) cur (input c) apology
             Hcur). }
  destruct Hrun as [e Hrun]. rewrite Hrun. cbn [fst snd comp trace].
  split; [reflexivity|]. split.
  { exists e, c1, c2, c3. repeat split; try reflexivity; exact Happ. }
  split; [exact Happ|]. split.
  { subst cur'. cbn [chat_messages]. rewrite length_app. reflexivity. }
  split; reflexivity.
Qed.

Lemma handleSubmit_failure_witness :
  let r := run (handleSubmit net_down) component_typing in
  fst r = Ok tt
  /\ getCurrentChat (store (comp (snd r)))
     = Some (mkChat (lit "1700000000002") (lit "New Chat")
                    [mkMessage user (lit "hello  ") None;
                     mkMessage assistant
                       (lit "Sorry, there was an error processing your request.")
                       None]
                    1700000000002%N None)
  /\ input (comp (snd r)) = lit ""
  /\ isLoading (comp (snd r)) = false.
Proof.
  intros r.
  destruct (handleSubmit_failure net_down component_typing chat_a
              eq_refl eq_refl eq_refl) as (H1 & _ & H3 & _ & H5 & H6).
  split; [exact H1|]. split; [exact H3|]. split; [exact H5|exact H6].
Defined.

(** *** Uploading a batch *)

Lemma fetches_app {S} (t1 t2 : list (Event S)) :
  fetches (t1 ++ t2) = fetches t1 ++ fetches t2.
Proof. unfold fetches. now rewrite flat_map_app. Qed.

(** A turn of the loop sends one request, commits one state and never
    throws; it touches nothing but the error list and the counter. *)
Lemma uploadOne_total net fid file w :
  exists u',
    uploadOne net (Some fid) file w
    = (Ok tt, mkWorld u' (trace w ++ [EvFetch (uploadRequest fid file);
                                      EvCommit u']))
    /\ uploading u' = uploading (comp w)
    /\ fileInputValue u' = fileInputValue (comp w).
Proof.
  unfold uploadOne, try_catch, bind, fetch, setState, folderIdText.
  cbn [comp trace]. change (mkReq POST _ _) with (uploadRequest fid file).
  destruct (net _ _) as [|[|] [d|]]; cbn [fst snd negb json ret throw comp trace];
    rewrite <- app_assoc; eexists; (split; [reflexivity|split; reflexivity]).
Qed.

Lemma uploadLoop_total net fid files :
  forall w, exists w',
    uploadLoop net (Some fid) files w = (Ok tt, w')
    /\ fetches (trace w') = fetches (trace w) ++ map (uploadRequest fid) files.
Proof.
  induction files as [|file rest IH]; intros w; simpl.
  - exists w. now rewrite app_nil_r.
  - unfold bind.
    destruct (uploadOne_total net fid file w) as (u' & -> & _).
    destruct (IH (mkWorld u' (trace w ++ [EvFetch (uploadRequest fid file);
                                          EvCommit u'])))
      as (w' & -> & Hf).
    exists w'. split; [reflexivity|].
    rewrite Hf. cbn [trace]. rewrite fetches_app. simpl.
    now rewrite <- app_assoc.
Qed.

(** The refresh sends one request and absorbs its failure. *)
Lemma loadDocuments_total net fid w :
  truthy fid = true ->
  exists w',
    loadDocuments net (Some fid) w = (Ok tt, w')
    /\ fetches (trace w') = fetches (trace w) ++ [listRequest fid].
Proof.
  intros Ht. unfold loadDocuments, try_catch, bind, fetch, setState,
    folderIdText, console_error, emit.
  cbn [truthy_opt]. rewrite Ht. cbn [negb comp trace].
  change (mkReq GET _ _) with (listRequest fid).
  destruct (net _ _) as [|[|] [d|]]; cbn [fst snd json ret throw comp trace];
    eexists; (split; [reflexivity|]); cbn [trace];
    rewrite ?fetches_app; simpl; rewrite ?app_nil_r; reflexivity.
Qed.

(** X24: whatever the backend answers to each file, a batch sent to a
    folder with a non-empty id ends normally, has sent one request per file and
    then the refresh, and has gone through the cleanup: not uploading, no
    progress indicator, file input emptied. *)
Lemma handleFileUpload_cleanup net fid file rest u :
  truthy fid = true ->
  let r := run (handleFileUpload net (Some fid) (Some (file :: rest))) u in
  fst r = Ok tt
  /\ fetches (trace (snd r))
     = map (uploadRequest fid) (file :: rest) ++ [listRequest fid]
  /\ uploading (comp (snd r)) = false
  /\ progress (comp (snd r)) = None
  /\ fileInputValue (comp (snd r)) = lit "".
Proof.
  intros Ht r.
  assert (Hr : exists w,
             r = (Ok tt, w)
             /\ fetches (trace w)
                = map (uploadRequest fid) (file :: rest) ++ [listRequest fid]
             /\ uploading (comp w) = false
             /\ progress (comp w) = None
             /\ fileInputValue (comp w) = lit "").
  { subst r.
    unfold run, handleFileUpload. cbn [length Nat.eqb orb truthy_opt].
    rewrite Ht. cbn [negb].
    unfold bind at 1 2 3, setState at 1 2 3. cbn [comp trace app].
    unfold try_finally, bind at 1.
    match goal with
    | |- context [uploadLoop net (Some fid) (file :: rest) ?w0] =>
        destruct (uploadLoop_total net fid (file :: rest) w0)
          as (w1 & -> & Hf1)
    end.
    destruct (loadDocuments_total net fid w1 Ht) as (w2 & -> & Hf2).
    unfold bind, setState. cbn [fst snd comp trace].
    eexists. split; [reflexivity|]. cbn [comp trace].
    rewrite !fetches_app, Hf2, Hf1. simpl. rewrite !app_nil_r.
    repeat split. }
  destruct Hr as (w & -> & H). exact (conj eq_refl H).
Qed.

Ltac next_answer net H :=
  match goal with
  | |- context [net ?n ?req] =>
      destruct (net n req) as [|[|] [?d|]];
      cbn [upload_failed negb] in H; try discriminate H; clear H
  end.

(** C6: a batch of three files sent to a folder for which the panel
    shows its file input, that is one whose id is neither null nor empty
    (the component returns null otherwise, and nothing else calls the
    handler), where the second upload fails (the call throws or the status
    is not a success) and the other two succeed, ends normally; the
    requests sent are the three uploads in order and then one refresh of
    the document list; the error list holds one entry, for the second
    file; the counter stands at 2 of 3 when the refresh is requested; and
    the cleanup has run: not uploading, no progress indicator, file input
    emptied. *)
Theorem upload_batch_second_fails net fid f1 f2 f3 u :
  truthy fid = true ->
  upload_failed (net 0 (uploadRequest fid f1)) = false ->
  upload_failed (net 1 (uploadRequest fid f2)) = true ->
  upload_failed (net 2 (uploadRequest fid f3)) = false ->
  let r := run (handleFileUpload net (Some fid) (Some [f1; f2; f3])) u in
  fst r = Ok tt
  /\ fetches (trace (snd r))
     = [uploadRequest fid f1; uploadRequest fid f2; uploadRequest fid f3;
        listRequest fid]
  /\ (exists message,
        uploadErrors (comp (snd r)) = [mkUploadError (file_name f2) message])
  /\ progress (last_commit (before_fetch 3 (trace (snd r))) u)
     = Some (mkProgress 2 3)
  /\ uploading (comp (snd r)) = false
  /\ progress (comp (snd r)) = None
  /\ fileInputValue (comp (snd r)) = lit "".
Proof.
  intros Ht H1 H2 H3 r.
  assert (Hr : exists w,
             r = (Ok tt, w)
             /\ fetches (trace w)
                = [uploadRequest fid f1; uploadRequest fid f2;
                   uploadRequest fid f3; listRequest fid]
             /\ (exists message,
                   uploadErrors (comp w)
                   = [mkUploadError (file_name f2) message])
             /\ progress (last_commit (before_fetch 3 (trace w)) u)
                = Some (mkProgress 2 3)
             /\ uploading (comp w) = false
             /\ progress (comp w) = None
             /\ fileInputValue (comp w) = lit "").
  { subst r.
    unfold run, handleFileUpload, uploadLoop, uploadOne, loadDocuments,
      try_finally, try_catch, bind, fetch, setState, folderIdText,
      console_error, emit.
    cbn [length Nat.eqb orb truthy_opt]. rewrite Ht.
    cbn [negb comp trace app fetches flat_map length].
    change (mkReq POST _ (FormData f1)) with (uploadRequest fid f1).
    change (mkReq POST _ (FormData f2)) with (uploadRequest fid f2).
    change (mkReq POST _ (FormData f3)) with (uploadRequest fid f3).
    change (mkReq GET _ NoBody) with (listRequest fid).
    next_answer net H1; simpl; next_answer net H2; simpl;
      next_answer net H3; simpl;
      match goal with
      | |- context [net 3 ?req] => destruct (net 3 req) as [|[|] [?d|]]
      end; simpl;
      (eexists; split; [reflexivity|]; simpl;
       repeat split; eexists; reflexivity). }
  destruct Hr as (w & -> & H). exact (conj eq_refl H).
Qed.

Lemma upload_batch_second_fails_witness :
  let fid := lit "1700000000000" in
  let r := run (handleFileUpload net_second_fails (Some fid)
                                 (Some [file1; file2; file3])) upload_idle in
  fst r = Ok tt
  /\ fetches (trace (snd r))
     = [uploadRequest fid file1; uploadRequest fid file2;
        uploadRequest fid file3; listRequest fid]
  /\ (exists message,
        uploadErrors (comp (snd r))
        = [mkUploadError (file_name file2) message])
  /\ progress (last_commit (before_fetch 3 (trace (snd r))) upload_idle)
     = Some (mkProgress 2 3)
  /\ uploading (comp (snd r)) = false
  /\ progress (comp (snd r)) = None
  /\ fileInputValue (comp (snd r)) = lit "".
Proof.
  exact (upload_batch_second_fails net_second_fails (lit "1700000000000")
           file1 file2 file3 upload_idle eq_refl eq_refl eq_refl eq_refl).
Defined.

(** *** The handlers act on the store through the store operations *)

Lemma createNewChat_is_op now date folderId c :
  store (createNewChat now date folderId c)
  = apply_op (OpCreateChat now date folderId) (store c).
Proof. reflexivity. Qed.

Lemma createNewFolder_is_op now date c :
  store (createNewFolder now date c)
  = if truthy (trim (newFolderName c))
    then apply_op (OpCreateFolder now date (newFolderName c)) (store c)
    else store c.
Proof.
  unfold createNewFolder. now destruct (truthy (trim (newFolderName c))).
Qed.

Lemma toggleFolder_is_op folderId c :
  store (toggleFolder folderId c) = apply_op (OpToggleFolder folderId) (store c).
Proof. reflexivity. Qed.

Lemma handleDrop_is_op target c :
  store (handleDrop target c)
  = match draggedChatId c with
    | Some dragged =>
        if truthy dragged then apply_op (OpMoveChat dragged target) (store c)
        else store c
    | None => store c
    end.
Proof.
  unfold handleDrop. destruct (draggedChatId c) as [d|]; [|reflexivity].
  now destruct (truthy d).
Qed.

(** A drop consumes the dragged id, so a second drop changes nothing. *)
Lemma handleDrop_twice target c :
  handleDrop target (handleDrop target c) = handleDrop target c.
Proof.
  unfold handleDrop. destruct (draggedChatId c) as [d|] eqn:E.
  - destruct (truthy d) eqn:T; simpl; [reflexivity|]. now rewrite E, T.
  - now rewrite E.
Qed.

Lemma deleteChat_is_op net chatId c :
  store_after (run (deleteChat net chatId) c) = store c
  \/ store_after (run (deleteChat net chatId) c)
     = apply_op (OpDeleteChat chatId) (store c).
Proof.
  destruct (net 0 (deleteChatRequest chatId)) eqn:E.
  - left. now rewrite (deleteChat_transport_failure net chatId c E).
  - right. now rewrite (deleteChat_response net chatId c ok body E).
Qed.

Lemma deleteFolder_is_op net folderId c :
  store_after (run (deleteFolder net folderId) c) = store c
  \/ store_after (run (deleteFolder net folderId) c)
     = apply_op (OpDeleteFolder folderId) (store c).
Proof.
  destruct (net 0 (deleteFolderRequest folderId)) eqn:E.
  - left. now rewrite (deleteFolder_transport_failure net folderId c E).
  - right. now rewrite (deleteFolder_response net folderId c ok body E).
Qed.

(** [handleSubmit] ends normally whatever the backend does, and changes
    the store by at most an appended exchange followed by a title
    update. *)
Lemma handleSubmit_is_ops net c :
  exists w ops,
    run (handleSubmit net) c = (Ok tt, w)
    /\ store (comp w) = apply_ops ops (store c)
    /\ Forall (fun op => fresh_chat_id op = None) ops.
Proof.
  unfold run, handleSubmit, bind at 1, getState. cbn [comp].
  destruct (getCurrentChat (store c)) as [cur|];
    [|eexists; exists []; repeat split; constructor].
  destruct (truthy (trim (input c)));
    [|eexists; exists []; repeat split; constructor].
  cbn [negb]. unfold bind, try_catch, setState, fetch.
  cbn [comp trace app fetches flat_map length].
  destruct (net 0 _) as [|[|] [d|]]; cbn [fst snd negb json ret throw].
  2: destruct (length (chat_messages cur) =? 0);
       [destruct (currentChatId (store c)) as [i|] eqn:Ei|].
  2: { eexists.
       exists [OpAppendExchange (Some i) (input c) (data_response d);
               OpUpdateChatTitle i (input c)].
       split; [reflexivity|]. split; [reflexivity|repeat constructor]. }
  2: { eexists. exists [OpAppendExchange None (input c) (data_response d)].
       split; [reflexivity|]. split; [reflexivity|repeat constructor]. }
  2: { eexists.
       exists [OpAppendExchange (currentChatId (store c)) (input c)
                                (data_response d)].
       split; [reflexivity|]. split; [reflexivity|repeat constructor]. }
  all: eexists;
    exists [OpAppendExchange (currentChatId (store c)) (input c) apology];
    (split; [reflexivity|]); split; [reflexivity|repeat constructor].
Qed.

(** *** More on sending a message *)

Lemma getCurrentChat_updateChatTitle s cur i m :
  currentChatId s = Some i ->
  getCurrentChat s = Some cur ->
  getCurrentChat (updateChatTitle i m s)
  = Some (chat_with_title (deriveTitle m) cur).
Proof.
  intros Hi H. unfold getCurrentChat in *. simpl. rewrite Hi in *.
  destruct (truthy i); simpl in *; [|discriminate].
  rewrite find_map_preserved.
  - rewrite H. simpl. apply find_some in H. destruct H as [_ H].
    now rewrite H.
  - intros x. destruct (str_eqb (chat_id x) i) eqn:E; simpl; rewrite ?E;
      reflexivity.
Qed.

(** X1: a submit with a current chat and an input that is not blank ends
    normally whatever the backend answers, after exactly one request.  The
    current chat gains exactly two messages, the input as typed and then
    the reply (the apology unless the answer is a success with a readable
    body); its title becomes the derived title only when the answer is
    such a success and the chat had no message; the input is cleared and
    the loading flag reset. *)
Theorem handleSubmit_settles net c cur :
  getCurrentChat (store c) = Some cur ->
  truthy (trim (input c)) = true ->
  let answer := net 0 (sendRequest cur c) in
  let r := run (handleSubmit net) c in
  fst r = Ok tt
  /\ fetches (trace (snd r)) = [sendRequest cur c]
  /\ getCurrentChat (store (comp (snd r)))
     = Some (mkChat (chat_id cur)
                    (if replied answer
                        && (length (chat_messages cur) =? 0)
                     then deriveTitle (input c) else chat_title cur)
                    (chat_messages cur
                     ++ [mkMessage user (input c) None;
                         mkMessage assistant (replyText answer) None])
                    (chat_timestamp cur) (chat_folderId cur))
  /\ input (comp (snd r)) = lit ""
  /\ isLoading (comp (snd r)) = false
  /\ folders (store (comp (snd r))) = folders (store c)
  /\ currentChatId (store (comp (snd r))) = currentChatId (store c).
Proof.
  intros Hcur Hin answer r.
  destruct (getCurrentChat_selected (store c) cur Hcur)
    as (i & Hi & Ti & Hid & _).
  pose proof (getCurrentChat_appendExchange (store c) cur (input c)
                (replyText answer) Hcur) as Happ.
  assert (Hr : exists w,
             r = (Ok tt, w)
             /\ fetches (trace w) = [sendRequest cur c]
             /\ store (comp w)
                = (if replied answer && (length (chat_messages cur) =? 0)
                   then updateChatTitle i (input c)
                   else fun s => s)
                    (appendExchange (currentChatId (store c)) (input c)
                                    (replyText answer) (store c))
             /\ input (comp w) = lit ""
             /\ isLoading (comp w) = false).
  { subst r answer. unfold run, handleSubmit, bind at 1, getState.
    cbn [comp]. rewrite Hcur, Hin. cbn [negb].
    unfold bind, try_catch, setState, fetch.
    cbn [comp trace app fetches flat_map length].
    change (mkReq POST _ _) with (sendRequest cur c).
    destruct (net 0 (sendRequest cur c)) as [|[|] [d|]];
      cbn [fst snd negb json ret throw replied replyText andb];
      try (eexists; repeat split; reflexivity).
    rewrite Hi.
    destruct (length (chat_messages cur) =? 0);
      eexists; repeat split; reflexivity. }
  destruct Hr as (w & -> & Hf & Hs & Hinp & Hl). cbn [fst snd].
  split; [reflexivity|]. split; [exact Hf|].
  split; [|split; [exact Hinp|split; [exact Hl|]]].
  - rewrite Hs.
    destruct (replied answer && (length (chat_messages cur) =? 0)).
    + rewrite (getCurrentChat_updateChatTitle _
                 (chat_with_messages
                    (chat_messages cur
                     ++ [mkMessage user (input c) None;
                         mkMessage assistant (replyText answer) None]) cur)
                 i (input c)); [reflexivity| |exact Happ].
      simpl. exact Hi.
    + exact Happ.
  - rewrite Hs.
    destruct (replied answer && (length (chat_messages cur) =? 0));
      split; reflexivity.
Qed.

Lemma handleSubmit_settles_witness :
  let r := run (handleSubmit net_reply) component_typing in
  fst r = Ok tt
  /\ getCurrentChat (store (comp (snd r)))
     = Some (mkChat (chat_id chat_a) (lit "hello  ")
                    [mkMessage user (lit "hello  ") None;
                     mkMessage assistant (lit "hi there") None]
                    (chat_timestamp chat_a) None)
  /\ input (comp (snd r)) = lit "".
Proof.
  intros r.
  destruct (handleSubmit_settles net_reply component_typing chat_a
              eq_refl eq_refl) as (H1 & _ & H3 & H4 & _).
  split; [exact H1|]. split; [exact H3|exact H4].
Defined.

(** X2: a submit with a blank input, or with no current chat (no
    selection, or a selected id that no chat carries), does nothing: no
    request, no state change. *)
Theorem handleSubmit_guard net c :
  truthy (trim (input c)) = false \/ getCurrentChat (store c) = None ->
  run (handleSubmit net) c = (Ok tt, mkWorld c []).
Proof.
  intros H. unfold run, handleSubmit, bind at 1, getState. cbn [comp].
  destruct (getCurrentChat (store c)) as [cur|]; [|reflexivity].
  destruct H as [H|H]; [|discriminate]. now rewrite H.
Qed.

Lemma handleSubmit_guard_witness :
  run (handleSubmit net_ok) (setInput (lit "   ") component_typing)
  = (Ok tt, mkWorld (setInput (lit "   ") component_typing) []).
Proof.
  apply (handleSubmit_guard net_ok (setInput (lit "   ") component_typing)).
  left. reflexivity.
Defined.

(** *** More on deleting *)

(** X3: when the request gets a response, [deleteChat] removes every chat
    with the given id and no other, keeps the folders, and keeps the
    selection whenever the deleted chat is not the selected one. *)
Theorem deleteChat_removes net chatId c ok body :
  net 0 (deleteChatRequest chatId) = Response ok body ->
  let s' := store_after (run (deleteChat net chatId) c) in
  (forall x, In x (chats s') <-> In x (chats (store c)) /\ chat_id x <> chatId)
  /\ folders s' = folders (store c)
  /\ currentFolderId s' = currentFolderId (store c)
  /\ (currentChatId (store c) <> Some chatId ->
      currentChatId s' = currentChatId (store c)).
Proof.
  intros H s'. subst s'.
  rewrite (deleteChat_response net chatId c ok body H).
  unfold store_after. cbn [snd comp setStore store deleteChat_update chats
    folders currentChatId currentFolderId].
  split; [|split; [reflexivity|split; [reflexivity|]]].
  - intros x. rewrite filter_In, negb_true_iff, str_eqb_neq. tauto.
  - intros Hne.
    destruct (opt_eqb (Some chatId) (currentChatId (store c))) eqn:E;
      [|reflexivity].
    apply opt_eqb_eq in E. congruence.
Qed.

Lemma deleteChat_removes_witness :
  let s' := store_after (run (deleteChat net_ok (chat_id chat_b))
                             (component_of store_ab)) in
  (forall x, In x (chats s') <-> In x [chat_a; chat_b]
                                 /\ chat_id x <> chat_id chat_b)
  /\ currentChatId s' = Some (chat_id chat_a).
Proof.
  intros s'.
  destruct (deleteChat_removes net_ok (chat_id chat_b)
              (component_of store_ab) true None eq_refl)
    as (H1 & _ & _ & H4).
  split; [exact H1|]. apply H4. discriminate.
Defined.

(** X4: deleting the selected chat when another chat, with a non-empty
    id, heads the list selects that chat: it is still the head of the list
    and it is the current chat. *)
Theorem deleteChat_selected_not_first net chatId c ok body head rest :
  net 0 (deleteChatRequest chatId) = Response ok body ->
  chats (store c) = head :: rest ->
  chat_id head <> chatId ->
  truthy (chat_id head) = true ->
  currentChatId (store c) = Some chatId ->
  let s' := store_after (run (deleteChat net chatId) c) in
  currentChatId s' = Some (chat_id head)
  /\ (exists rest', chats s' = head :: rest')
  /\ getCurrentChat s' = Some head.
Proof.
  intros H Hc Hne Ht Hcur s'. subst s'.
  rewrite (deleteChat_response net chatId c ok body H).
  unfold store_after, getCurrentChat.
  cbn [snd comp setStore store deleteChat_update chats currentChatId].
  rewrite Hcur, Hc. cbn [opt_eqb firstChatId filter].
  rewrite str_eqb_refl, Ht.
  apply str_eqb_neq in Hne. rewrite Hne. cbn [negb find].
  rewrite str_eqb_refl, Ht.
  split; [reflexivity|]. split; [eexists; reflexivity|reflexivity].
Qed.

Lemma deleteChat_selected_not_first_witness :
  let c := component_of (mkStore [chat_a; chat_b] [folder_f]
                                 (Some (chat_id chat_b)) None) in
  getCurrentChat (store_after (run (deleteChat net_ok (chat_id chat_b)) c))
  = Some chat_a.
Proof.
  intros c.
  destruct (deleteChat_selected_not_first net_ok (chat_id chat_b) c true None
              chat_a [chat_b] eq_refl eq_refl) as (_ & _ & H);
    [discriminate|reflexivity|reflexivity|exact H].
Defined.

(** X5: when the delete request fails in transport, [deleteChat] and
    [deleteFolder] end normally, commit nothing and leave the component
    as it was; the error only reaches the console. *)
Theorem delete_transport_failure_keeps_state net i c :
  net 0 (deleteChatRequest i) = NetworkFailure ->
  net 0 (deleteFolderRequest i) = NetworkFailure ->
  let r1 := run (deleteChat net i) c in
  let r2 := run (deleteFolder net i) c in
  (fst r1 = Ok tt /\ comp (snd r1) = c /\ commits (trace (snd r1)) = [])
  /\ (fst r2 = Ok tt /\ comp (snd r2) = c /\ commits (trace (snd r2)) = []).
Proof.
  intros H1 H2 r1 r2. subst r1 r2.
  rewrite (deleteChat_transport_failure net i c H1).
  rewrite (deleteFolder_transport_failure net i c H2).
  repeat split.
Qed.

Lemma delete_transport_failure_keeps_state_witness :
  comp (snd (run (deleteChat net_down (chat_id chat_a))
                 (component_of store_ab)))
  = component_of store_ab
  /\ comp (snd (run (deleteFolder net_down (chat_id chat_a))
                    (component_of store_ab)))
     = component_of store_ab.
Proof.
  destruct (delete_transport_failure_keeps_state net_down (chat_id chat_a)
              (component_of store_ab) eq_refl eq_refl)
    as ((_ & H1 & _) & (_ & H2 & _)).
  split; [exact H1|exact H2].
Defined.

(** *** Generated ids and blank names *)

Lemma lit_inj (a b : string) : lit a = lit b -> a = b.
Proof.
  unfold lit. intros H.
  rewrite <- (string_of_list_ascii_of_string a),
          <- (string_of_list_ascii_of_string b).
  f_equal.
  revert H. generalize (list_ascii_of_string a) (list_ascii_of_string b).
  induction l as [|x l IH]; intros [|y l']; simpl; try discriminate;
    [reflexivity|].
  intros H. injection H as Hxy Hl. f_equal; [|now apply IH].
  rewrite <- (ascii_N_embedding x), <- (ascii_N_embedding y). now f_equal.
Qed.

Lemma toString_inj (n m : N) : toString n = toString m -> n = m.
Proof.
  unfold toString. intros H. apply lit_inj in H.
  assert (Hu : N.to_uint n = N.to_uint m).
  { pose proof (NilEmpty.usu (N.to_uint n)) as Hn.
    pose proof (NilEmpty.usu (N.to_uint m)) as Hm.
    rewrite H in Hn. congruence. }
  rewrite <- (DecimalN.Unsigned.of_to n), <- (DecimalN.Unsigned.of_to m).
  now f_equal.
Qed.

Lemma toString_truthy (n : N) : truthy (toString n) = true.
Proof.
  unfold toString.
  assert (Hnil : N.to_uint n <> Decimal.Nil).
  { destruct n as [|p]; simpl; [discriminate|].
    apply DecimalPos.Unsigned.to_uint_nonnil. }
  destruct (N.to_uint n); try congruence; reflexivity.
Qed.

Lemma trimStart_nil (s : jsstring) :
  trimStart s = [] <-> forallb is_space s = true.
Proof.
  induction s as [|x s IH]; simpl; [tauto|].
  destruct (is_space x); simpl; [exact IH|]. split; discriminate.
Qed.

Lemma trimStart_all_space_rev (s : jsstring) :
  forallb is_space (rev s) = forallb is_space s.
Proof.
  induction s as [|x s IH]; simpl; [reflexivity|].
  rewrite forallb_app, IH. simpl. rewrite andb_true_r. apply andb_comm.
Qed.

Lemma trimStart_keeps_non_space (s : jsstring) :
  forallb is_space s = false -> forallb is_space (trimStart s) = false.
Proof.
  induction s as [|x s IH]; simpl; [discriminate|].
  destruct (is_space x) eqn:E; simpl; [exact IH|]. now rewrite E.
Qed.

(** A string trims to the empty string exactly when it is made of
    whitespace only. *)
Lemma trim_blank (s : jsstring) :
  truthy (trim s) = false <-> forallb is_space s = true.
Proof.
  unfold trim, trimEnd.
  destruct (forallb is_space s) eqn:E.
  - apply trimStart_nil in E. rewrite E. simpl. tauto.
  - split; [|discriminate]. intros H. exfalso.
    apply trimStart_keeps_non_space in E.
    rewrite <- trimStart_all_space_rev in E.
    apply trimStart_keeps_non_space in E.
    rewrite <- trimStart_all_space_rev in E.
    destruct (rev (trimStart (rev (trimStart s)))); simpl in *; discriminate.
Qed.

(** X6: [createNewChat] puts the new chat, titled "New Chat" and without
    messages, at the head of the list before the chats already there, and
    that chat is the current one afterwards: its generated id is never the
    empty string.  Folders and the rest of the component do not change. *)
Theorem createNewChat_selects now date folderId c :
  let c' := createNewChat now date folderId c in
  let fresh := mkChat (toString now) (lit "New Chat") [] date folderId in
  chats (store c') = fresh :: chats (store c)
  /\ getCurrentChat (store c') = Some fresh
  /\ folders (store c') = folders (store c)
  /\ currentFolderId (store c') = currentFolderId (store c)
  /\ c' = setStore (fun _ => store c') c.
Proof.
  intros c' fresh. subst c' fresh. unfold getCurrentChat, createNewChat.
  cbn [store setStore createNewChat_update currentChatId chats newChat
       chat_id find].
  rewrite toString_truthy, str_eqb_refl. repeat split.
Qed.

(** X7: [createNewFolder] does nothing when the typed name is made of
    whitespace only; otherwise it appends, after the folders already
    there, an expanded folder carrying the name exactly as typed, and
    empties the name field; chats and selection do not change. *)
Theorem createNewFolder_blank_or_appends now date c :
  let c' := createNewFolder now date c in
  if forallb is_space (newFolderName c)
  then c' = c
  else folders (store c')
       = folders (store c)
         ++ [mkFolder (toString now) (newFolderName c) date (Some true)]
       /\ newFolderName c' = lit ""
       /\ chats (store c') = chats (store c)
       /\ currentChatId (store c') = currentChatId (store c)
       /\ currentFolderId (store c') = currentFolderId (store c).
Proof.
  intros c'. subst c'. unfold createNewFolder.
  destruct (forallb is_space (newFolderName c)) eqn:E.
  - apply trim_blank in E. now rewrite E.
  - destruct (truthy (trim (newFolderName c))) eqn:T.
    + repeat split.
    + apply trim_blank in T. congruence.
Qed.

(** X8: two chats, or two folders, get the same generated id exactly when
    they were created at the same clock value. *)
Theorem generated_ids_follow_clock n1 d1 f1 n2 d2 f2 name1 name2 :
  (chat_id (newChat n1 d1 f1) = chat_id (newChat n2 d2 f2) <-> n1 = n2)
  /\ (folder_id (newFolder n1 d1 name1) = folder_id (newFolder n2 d2 name2)
      <-> n1 = n2).
Proof.
  simpl. split; (split; [apply toString_inj|now intros ->]).
Qed.

(** X9: two chats created at the same clock value share their id: the
    chat ids of the store are no longer pairwise distinct. *)
Theorem createNewChat_same_clock_collides now d1 f1 d2 f2 c :
  ~ NoDup (chat_ids (store (createNewChat now d2 f2
                              (createNewChat now d1 f1 c)))).
Proof.
  unfold chat_ids. simpl. intros H. inversion H as [|? ? Hnotin _]; subst.
  apply Hnotin. now left.
Qed.

(** X10: creating a chat under an id no chat carries and deleting it
    again gives back the chat list and the folders, and leaves no current
    chat. *)
Theorem create_then_deleteChat net now date folderId c ok body :
  ~ In (toString now) (chat_ids (store c)) ->
  net 0 (deleteChatRequest (toString now)) = Response ok body ->
  let s' := store_after (run (deleteChat net (toString now))
                             (createNewChat now date folderId c)) in
  chats s' = chats (store c)
  /\ folders s' = folders (store c)
  /\ getCurrentChat s' = None.
Proof.
  intros Hfresh H s'. subst s'.
  rewrite (deleteChat_response net (toString now) _ ok body H).
  unfold store_after, getCurrentChat, createNewChat.
  cbn [snd comp setStore store deleteChat_update createNewChat_update chats
       folders currentChatId newChat chat_id opt_eqb firstChatId filter].
  rewrite !str_eqb_refl, toString_truthy. cbn [negb].
  assert (Hkeep : filter (fun chat => negb (str_eqb (chat_id chat)
                                                    (toString now)))
                         (chats (store c)) = chats (store c)).
  { unfold chat_ids in Hfresh.
    induction (chats (store c)) as [|x l IH]; simpl; [reflexivity|].
    simpl in Hfresh.
    destruct (str_eqb_spec (chat_id x) (toString now)) as [E|E]; simpl.
    - exfalso. apply Hfresh. now left.
    - f_equal. apply IH. tauto. }
  rewrite Hkeep. split; [reflexivity|]. split; [reflexivity|].
  rewrite toString_truthy. cbn [negb].
  destruct (find _ (chats (store c))) as [x|] eqn:F; [|reflexivity].
  apply find_some in F. destruct F as [Hin Hid]. apply str_eqb_eq in Hid.
  exfalso. apply Hfresh. unfold chat_ids. rewrite <- Hid. now apply in_map.
Qed.

Lemma create_then_deleteChat_witness :
  let s' := store_after
              (run (deleteChat net_ok (toString 1700000000005%N))
                   (createNewChat 1700000000005%N 1700000000005%N None
                                  (component_of store_ab))) in
  chats s' = [chat_a; chat_b] /\ getCurrentChat s' = None.
Proof.
  intros s'.
  destruct (create_then_deleteChat net_ok 1700000000005%N 1700000000005%N
              None (component_of store_ab) true None) as (H1 & _ & H3).
  - vm_compute. intros [H|[H|[]]]; discriminate H.
  - reflexivity.
  - split; [exact H1|exact H3].
Defined.

(** *** Invariants of the store operations *)

Lemma map_folder_id_preserved (g : Folder -> Folder) (l : list Folder) :
  (forall f, folder_id (g f) = folder_id f) ->
  map folder_id (map g l) = map folder_id l.
Proof.
  intros Hg. rewrite map_map. apply map_ext. exact Hg.
Qed.

Lemma NoDup_snoc {A} (l : list A) (x : A) :
  NoDup l -> ~ In x l -> NoDup (l ++ [x]).
Proof.
  intros Hl Hx. apply NoDup_app; [exact Hl|repeat constructor; intros []|].
  intros y Hy [<-|[]]. contradiction.
Qed.

(** X11: a store operation keeps the folder ids pairwise distinct,
    provided the id it generates for a folder, if any, is not the id of a
    folder already present. *)
Theorem apply_op_unique_folder_ids (op : StoreOp) (s : ChatStore) :
  NoDup (folder_ids s) ->
  (forall i, fresh_folder_id op = Some i -> ~ In i (folder_ids s)) ->
  NoDup (folder_ids (apply_op op s)).
Proof.
  intros Hnd Hfresh.
  destruct op; simpl; try assumption; unfold folder_ids; simpl.
  - rewrite map_app. simpl. apply NoDup_snoc; [exact Hnd|].
    apply Hfresh. reflexivity.
  - rewrite map_folder_id_preserved; [exact Hnd|].
    intros f. now destruct (str_eqb (folder_id f) folderId).
  - rewrite map_folder_id_preserved; [exact Hnd|].
    intros f. now destruct (str_eqb (folder_id f) folderId).
  - now apply NoDup_map_filter.
Qed.

Lemma apply_op_unique_folder_ids_witness :
  let op := OpCreateFolder 1700000000009%N 1700000000009%N (lit "new") in
  NoDup (folder_ids (apply_op op store_ab)).
Proof.
  intros op. apply (apply_op_unique_folder_ids op store_ab).
  - repeat constructor. intros [].
  - intros i Hi. injection Hi as <-. vm_compute. intros [H|[]].
    discriminate H.
Defined.

Lemma has_folder_In s f : has_folder s f = true <-> In f (folder_ids s).
Proof.
  unfold has_folder. rewrite existsb_exists. split.
  - intros (x & Hx & E). apply str_eqb_eq in E. now subst.
  - intros H. exists f. split; [exact H|apply str_eqb_refl].
Qed.

Lemma refs_resolve_spec s :
  refs_resolve s = true
  <-> forall chat f, In chat (chats s) -> chat_folderId chat = Some f ->
                     In f (folder_ids s).
Proof.
  unfold refs_resolve. rewrite forallb_forall. split.
  - intros H chat f Hin Hf. specialize (H chat Hin). rewrite Hf in H.
    now apply has_folder_In.
  - intros H chat Hin. destruct (chat_folderId chat) as [f|] eqn:E;
      [|reflexivity].
    apply has_folder_In. now apply (H chat).
Qed.

(** X12: a store operation keeps every filed chat under an existing
    folder, provided the folder it files a chat under (on creating a chat
    in a folder, on moving a chat) is one the store has.  In particular
    deleting a folder leaves no chat pointing at it. *)
Theorem apply_op_refs_resolve (op : StoreOp) (s : ChatStore) :
  refs_resolve s = true ->
  target_exists op s = true ->
  refs_resolve (apply_op op s) = true.
Proof.
  intros Hok Ht. rewrite refs_resolve_spec in *.
  destruct op; simpl in *.
  - intros chat f Hin Hf. unfold folder_ids. simpl. rewrite map_app.
    apply in_or_app. left. now apply (Hok chat).
  - intros chat f [<-|Hin] Hf.
    + simpl in Hf. subst folderId. now apply has_folder_In.
    + now apply (Hok chat).
  - exact Hok.
  - intros chat f Hin Hf. unfold folder_ids. simpl.
    rewrite map_folder_id_preserved; [now apply (Hok chat)|].
    intros x. now destruct (str_eqb (folder_id x) folderId).
  - intros chat f Hin Hf. unfold folder_ids. simpl.
    rewrite map_folder_id_preserved; [now apply (Hok chat)|].
    intros x. now destruct (str_eqb (folder_id x) folderId).
  - intros chat f Hin Hf. apply filter_In in Hin. now apply (Hok chat).
  - intros chat f Hin Hf. apply in_map_iff in Hin.
    destruct Hin as (x & <- & Hx).
    destruct (opt_eqb (chat_folderId x) (Some folderId)) eqn:E;
      [discriminate Hf|].
    apply opt_eqb_neq in E. unfold folder_ids. simpl.
    apply in_map_iff.
    pose proof (Hok x f Hx Hf) as Hin. apply in_map_iff in Hin.
    destruct Hin as (fo & Hid & Hfo). exists fo. split; [exact Hid|].
    apply filter_In. split; [exact Hfo|].
    apply negb_true_iff, str_eqb_neq. congruence.
  - intros chat f Hin Hf. apply in_map_iff in Hin.
    destruct Hin as (x & <- & Hx).
    destruct (str_eqb (chat_id x) chatId); [|now apply (Hok x)].
    simpl in Hf. subst targetFolderId. now apply has_folder_In.
  - intros chat f Hin Hf. apply in_map_iff in Hin.
    destruct Hin as (x & <- & Hx).
    match type of Hf with
    | context [if ?b then _ else _] => destruct b
    end; now apply (Hok x).
  - intros chat f Hin Hf. apply in_map_iff in Hin.
    destruct Hin as (x & <- & Hx).
    destruct (str_eqb (chat_id x) chatId); now apply (Hok x).
Qed.

Lemma apply_op_refs_resolve_witness :
  refs_resolve (apply_op (OpDeleteFolder (folder_id folder_f)) store_ab)
  = true.
Proof.
  apply (apply_op_refs_resolve (OpDeleteFolder (folder_id folder_f)) store_ab);
    reflexivity.
Defined.

(** X13: messages are only ever appended.  After a store operation, each
    chat of the store either is a chat that was there, under the same id
    and with its former messages as a prefix of its messages, or is the
    chat the operation created, with no message yet. *)
Theorem apply_op_append_only (op : StoreOp) (s : ChatStore) (chat' : Chat) :
  In chat' (chats (apply_op op s)) ->
  (exists chat more,
      In chat (chats s) /\ chat_id chat' = chat_id chat
      /\ chat_messages chat' = chat_messages chat ++ more)
  \/ (fresh_chat_id op = Some (chat_id chat') /\ chat_messages chat' = []).
Proof.
  assert (Hsame : forall x, In x (chats s) ->
            exists chat more, In chat (chats s) /\ chat_id x = chat_id chat
                              /\ chat_messages x = chat_messages chat ++ more).
  { intros x Hx. exists x, []. now rewrite app_nil_r. }
  destruct op; simpl; intros Hin; try (left; now apply Hsame).
  - destruct Hin as [<-|Hin]; [right; split; reflexivity|left; now apply Hsame].
  - apply filter_In in Hin. left. now apply Hsame.
  - apply in_map_iff in Hin. destruct Hin as (x & <- & Hx). left.
    exists x, []. rewrite app_nil_r.
    destruct (opt_eqb (chat_folderId x) (Some folderId)); repeat split; auto.
  - apply in_map_iff in Hin. destruct Hin as (x & <- & Hx). left.
    exists x, []. rewrite app_nil_r.
    destruct (str_eqb (chat_id x) chatId); repeat split; auto.
  - apply in_map_iff in Hin. destruct Hin as (x & <- & Hx). left.
    match goal with
    | |- context [if ?b then _ else _] => destruct b
    end.
    + exists x. eexists. split; [exact Hx|]. split; reflexivity.
    + exists x, []. rewrite app_nil_r. repeat split; auto.
  - apply in_map_iff in Hin. destruct Hin as (x & <- & Hx). left.
    exists x, []. rewrite app_nil_r.
    destruct (str_eqb (chat_id x) chatId); repeat split; auto.
Qed.

Lemma apply_op_append_only_witness :
  (exists chat more,
      In chat (chats store_ab) /\ chat_id chat_b = chat_id chat
      /\ chat_messages chat_b = chat_messages chat ++ more)
  \/ (fresh_chat_id (OpDeleteChat (chat_id chat_a)) = Some (chat_id chat_b)
      /\ chat_messages chat_b = []).
Proof.
  apply (apply_op_append_only (OpDeleteChat (chat_id chat_a)) store_ab chat_b).
  vm_compute. now left.
Defined.

(** *** Renaming, expanding, dragging *)

(** X14: renaming folder [f] changes nothing but the name of the folders
    with id [f], which becomes the new name (the empty name included);
    chats and selection are untouched; and of two renamings in a row only
    the last one shows. *)
Theorem renameFolder_update_last_wins f n1 n2 s :
  renameFolder_update f n2 (renameFolder_update f n1 s)
  = renameFolder_update f n2 s
  /\ Forall2 (renamed_from f n2) (folders s)
             (folders (renameFolder_update f n2 s))
  /\ chats (renameFolder_update f n2 s) = chats s
  /\ currentChatId (renameFolder_update f n2 s) = currentChatId s
  /\ currentFolderId (renameFolder_update f n2 s) = currentFolderId s.
Proof.
  split; [|split; [|repeat split]].
  - unfold renameFolder_update, store_with_folders. simpl. f_equal.
    rewrite map_map. apply map_ext. intros x.
    destruct (str_eqb (folder_id x) f) eqn:E; simpl; rewrite E; reflexivity.
  - simpl. induction (folders s) as [|x l IH]; simpl; constructor;
      [|exact IH].
    destruct (str_eqb (folder_id x) f) eqn:E; unfold renamed_from; simpl.
    + apply str_eqb_eq in E. repeat split; congruence.
    + apply str_eqb_neq in E. repeat split; congruence.
Qed.

(** X15: toggling folder [f] flips what every folder with id [f] shows,
    also when its flag was absent (shown as collapsed, then expanded), and
    leaves what the other folders show; after two toggles every folder
    has its id, name and timestamp and shows what it showed. *)
Theorem toggleFolder_update_shown f s :
  map shownExpanded (folders (toggleFolder_update f s))
  = map (fun x => if str_eqb (folder_id x) f
                  then negb (shownExpanded x) else shownExpanded x)
        (folders s)
  /\ Forall2 same_shown (folders s)
             (folders (toggleFolder_update f (toggleFolder_update f s))).
Proof.
  split.
  - simpl. rewrite map_map. apply map_ext. intros x.
    destruct (str_eqb (folder_id x) f); [|reflexivity].
    destruct x as [i n t [[|]|]]; reflexivity.
  - simpl. rewrite map_map.
    induction (folders s) as [|x l IH]; simpl; constructor; [|exact IH].
    destruct (str_eqb (folder_id x) f) eqn:E; simpl; rewrite E;
      unfold same_shown; [|repeat split].
    destruct x as [i n t [[|]|]]; repeat split.
Qed.

(** X16: a drop that follows the start of a drag of a chat with a
    non-empty id files every chat with that id under the target (unfiles
    it when the target is null), changes no other chat, keeps folders and
    selection, and forgets the dragged id; a drop with no drag in
    progress changes nothing. *)
Theorem handleDrop_after_drag chatId target c :
  truthy chatId = true ->
  let c' := handleDrop target (handleDragStart chatId c) in
  Forall2 (moved_from chatId target) (chats (store c)) (chats (store c'))
  /\ folders (store c') = folders (store c)
  /\ currentChatId (store c') = currentChatId (store c)
  /\ draggedChatId c' = None
  /\ handleDrop target c' = c'.
Proof.
  intros Ht c'.
  assert (Hc' : c' = setDraggedChatId None
                       (setStore (moveChat_update chatId target)
                                 (setDraggedChatId (Some chatId) c))).
  { subst c'. unfold handleDrop, handleDragStart.
    cbn [draggedChatId setDraggedChatId]. now rewrite Ht. }
  rewrite Hc'. clear Hc' c'.
  split; [|repeat split].
  simpl. induction (chats (store c)) as [|x l IH]; simpl; constructor;
    [|exact IH].
  destruct (str_eqb (chat_id x) chatId) eqn:E; unfold moved_from; simpl.
  - apply str_eqb_eq in E. repeat split; congruence.
  - apply str_eqb_neq in E. repeat split; congruence.
Qed.

Lemma handleDrop_after_drag_witness :
  let c' := handleDrop None (handleDragStart (chat_id chat_b)
                                             (component_of store_ab)) in
  Forall2 (moved_from (chat_id chat_b) None) [chat_a; chat_b]
          (chats (store c'))
  /\ draggedChatId c' = None.
Proof.
  intros c'.
  destruct (handleDrop_after_drag (chat_id chat_b) None
              (component_of store_ab) eq_refl) as (H1 & _ & _ & H4 & _).
  split; [exact H1|exact H4].
Defined.

(** X17: after a folder is deleted, every chat that was filed under it,
    and every chat that was in the unfiled list, is in the unfiled list of
    the sidebar, the same chat but for a [folderId] made null. *)
Theorem deleteFolder_update_unfiles F s chat :
  In chat (chats s) ->
  chat_folderId chat = Some F \/ In chat (unfiledChats s) ->
  exists chat',
    In chat' (unfiledChats (deleteFolder_update F s))
    /\ unfiled_from F chat chat'.
Proof.
  intros Hin Hcase.
  exists (if opt_eqb (chat_folderId chat) (Some F)
          then chat_with_folderId None chat else chat).
  split.
  - unfold unfiledChats. apply filter_In. split.
    + simpl. apply in_map_iff. exists chat. split; [reflexivity|exact Hin].
    + destruct (opt_eqb (chat_folderId chat) (Some F)) eqn:E; [reflexivity|].
      destruct Hcase as [HF|Hu].
      * apply opt_eqb_neq in E. contradiction.
      * unfold unfiledChats in Hu. apply filter_In in Hu. tauto.
  - destruct (opt_eqb (chat_folderId chat) (Some F)) eqn:E;
      unfold unfiled_from.
    + apply opt_eqb_eq in E. simpl. repeat split; congruence.
    + apply opt_eqb_neq in E. repeat split; congruence.
Qed.

Lemma deleteFolder_update_unfiles_witness :
  exists chat',
    In chat' (unfiledChats (deleteFolder_update (folder_id folder_f) store_ab))
    /\ unfiled_from (folder_id folder_f) chat_b chat'.
Proof.
  apply (deleteFolder_update_unfiles (folder_id folder_f) store_ab chat_b).
  - right. now left.
  - left. reflexivity.
Defined.

(** X18: a chat filed under a non-empty id that no folder of the store
    carries is rendered nowhere in the sidebar: it is not in the unfiled
    list and not in the list of any folder. *)
Theorem orphan_chat_not_rendered s chat f :
  chat_folderId chat = Some f ->
  truthy f = true ->
  has_folder s f = false ->
  ~ In chat (unfiledChats s)
  /\ (forall folder, In folder (folders s) ->
                     ~ In chat (chatsOfFolder folder s)).
Proof.
  intros Hf Ht Hno. split.
  - unfold unfiledChats. rewrite filter_In, Hf. simpl. rewrite Ht.
    intros [_ H]. discriminate.
  - intros folder Hfolder. unfold chatsOfFolder. rewrite filter_In, Hf.
    simpl. intros [_ H]. apply str_eqb_eq in H. subst f.
    assert (Hyes : has_folder s (folder_id folder) = true).
    { apply has_folder_In. unfold folder_ids. now apply in_map. }
    congruence.
Qed.

Lemma orphan_chat_not_rendered_witness :
  ~ In chat_b (unfiledChats (mkStore [chat_b] [] None None)).
Proof.
  apply (orphan_chat_not_rendered (mkStore [chat_b] [] None None) chat_b
           (lit "1700000000000")); reflexivity.
Defined.

(** *** The form while a message is sent *)

(** X19: when a submit goes through, the form is disabled at the moment
    the request is sent, with the store still as it was, and enabled
    again once the handler has ended, whatever the backend answers. *)
Theorem handleSubmit_disables_form net c cur :
  getCurrentChat (store c) = Some cur ->
  truthy (trim (input c)) = true ->
  let r := run (handleSubmit net) c in
  let sending := last_commit (before_fetch 0 (trace (snd r))) c in
  formDisabled sending = true
  /\ store sending = store c
  /\ formDisabled (comp (snd r)) = false.
Proof.
  intros Hcur Hin r sending.
  destruct (getCurrentChat_selected (store c) cur Hcur)
    as (i & Hi & Ti & _ & _).
  assert (Hr : exists w post,
             r = (Ok tt, w)
             /\ trace w = EvCommit (setIsLoading true c)
                           :: EvFetch (sendRequest cur c) :: post
             /\ isLoading (comp w) = false
             /\ currentChatId (store (comp w)) = Some i).
  { subst r sending. unfold run, handleSubmit, bind at 1, getState.
    cbn [comp]. rewrite Hcur, Hin. cbn [negb].
    unfold bind, try_catch, setState, fetch.
    cbn [comp trace app fetches flat_map length].
    change (mkReq POST _ _) with (sendRequest cur c).
    destruct (net 0 (sendRequest cur c)) as [|[|] [d|]];
      cbn [fst snd negb json ret throw];
      try (do 2 eexists; repeat split; (reflexivity || exact Hi)).
    rewrite Hi.
    destruct (length (chat_messages cur) =? 0);
      do 2 eexists; repeat split; (reflexivity || exact Hi). }
  destruct Hr as (w & post & Hr & Htr & Hl & Hc).
  subst sending. rewrite Hr. cbn [snd]. rewrite Htr.
  unfold formDisabled. rewrite Hl, Hc. cbn. now rewrite Ti.
Qed.

Lemma handleSubmit_disables_form_witness :
  formDisabled (comp (snd (run (handleSubmit net_reply) component_typing)))
  = false.
Proof.
  destruct (handleSubmit_disables_form net_reply component_typing chat_a
              eq_refl eq_refl) as (_ & _ & H).
  exact H.
Defined.

(** *** More on hydration *)

(** X20: when the slot holds a non-empty text whose parse is a store, the
    initializer returns that store, and the mount effect, from any state
    of the component, ends normally without a request, sets the store to
    it, sets the dark mode on exactly when the other slot holds the text
    "true", and changes no other field. *)
Theorem hydration_restores JSON_parse savedDark text v c :
  truthy text = true ->
  JSON_parse text = Some v ->
  let r := run (mountEffect JSON_parse savedDark (Some text)) c in
  fst (run (storeInitializer JSON_parse (Some text)) tt) = Ok v
  /\ fst r = Ok tt
  /\ fetches (trace (snd r)) = []
  /\ store (comp (snd r)) = v
  /\ isDarkMode (comp (snd r)) = opt_eqb savedDark (Some (lit "true"))
  /\ input (comp (snd r)) = input c
  /\ isLoading (comp (snd r)) = isLoading c
  /\ newFolderName (comp (snd r)) = newFolderName c
  /\ editingFolderId (comp (snd r)) = editingFolderId c
  /\ draggedChatId (comp (snd r)) = draggedChatId c.
Proof.
  intros Ht Hp r. subst r. unfold run, storeInitializer, mountEffect,
    try_catch, bind, parse, setState, console_log, emit.
  cbn [comp trace]. rewrite Ht, Hp. repeat split.
Qed.

Lemma hydration_restores_witness :
  let r := run (mountEffect JSON_parse_stores (Some (lit "true"))
                            (Some selectionStore_json))
               (firstRender emptyStore) in
  fst (run (storeInitializer JSON_parse_stores (Some selectionStore_json)) tt)
  = Ok (mkStore [] [] (Some (lit "1700000000002")) None)
  /\ fst r = Ok tt
  /\ currentChatId (store (comp (snd r))) = Some (lit "1700000000002")
  /\ isDarkMode (comp (snd r)) = true.
Proof.
  intros r.
  destruct (hydration_restores JSON_parse_stores (Some (lit "true"))
              selectionStore_json selectionStore (firstRender emptyStore)
              eq_refl eq_refl) as (H1 & H2 & _ & H4 & H5 & _).
  split; [exact H1|]. split; [exact H2|].
  split; [fold r in H4; now rewrite H4|exact H5].
Defined.


(** *** More on the upload panel *)

Lemma before_fetch_app {S} (t post : list (Event S)) (r : Request) :
  before_fetch (length (fetches t)) (t ++ EvFetch r :: post) = t.
Proof.
  induction t as [|e t IH]; simpl; [reflexivity|].
  destruct e; simpl; now rewrite IH.
Qed.

Lemma commits_app {S} (t1 t2 : list (Event S)) :
  commits (t1 ++ t2) = commits t1 ++ commits t2.
Proof. unfold commits. now rewrite flat_map_app. Qed.

Lemma advanced_counter n a b :
  advanced n (Some (mkProgress a b)) = Some (mkProgress (a + n) b).
Proof.
  unfold advanced. induction n as [|n IH]; simpl.
  - now rewrite Nat.add_0_r.
  - rewrite IH. simpl. f_equal. f_equal. lia.
Qed.

Lemma advanced_S n p : advanced (S n) p = advanced n (advance p).
Proof. unfold advanced. now rewrite Nat.iter_succ_r. Qed.

(** One turn of the loop, by the answer it gets. *)
Lemma uploadOne_step net fid file w :
  let answer := net (length (fetches (trace w))) (uploadRequest fid file) in
  let u' := match uploadErrorOf file answer with
            | Some e => setUploadErrors (fun prev => prev ++ [e]) (comp w)
            | None => setProgress advance (comp w)
            end in
  uploadOne net (Some fid) file w
  = (Ok tt, mkWorld u' (trace w ++ [EvFetch (uploadRequest fid file);
                                    EvCommit u'])).
Proof.
  intros answer u'. subst answer u'.
  unfold uploadOne, try_catch, bind, fetch, setState, folderIdText.
  cbn [comp trace]. change (mkReq POST _ _) with (uploadRequest fid file).
  destruct (net _ _) as [|[|] [d|]];
    cbn [fst snd negb json ret throw comp trace uploadErrorOf];
    rewrite <- app_assoc; reflexivity.
Qed.

Lemma uploadLoop_fold net fid files :
  forall w, exists w',
    uploadLoop net (Some fid) files w = (Ok tt, w')
    /\ uploadErrors (comp w')
       = uploadErrors (comp w)
         ++ batchErrors net fid (length (fetches (trace w))) files
    /\ progress (comp w')
       = advanced (batchSuccesses net fid (length (fetches (trace w))) files)
                  (progress (comp w))
    /\ length (fetches (trace w'))
       = length (fetches (trace w)) + length files
    /\ documents (comp w') = documents (comp w)
    /\ (forall d, last_commit (trace w) d = comp w ->
                  last_commit (trace w') d = comp w').
Proof.
  induction files as [|file rest IH]; intros w.
  - exists w. simpl. rewrite app_nil_r, Nat.add_0_r. repeat split. auto.
  - cbn [uploadLoop]. unfold bind. rewrite uploadOne_step.
    match goal with
    | |- context [uploadLoop net (Some fid) rest ?w1] =>
        destruct (IH w1) as (w' & -> & He & Hp & Hn & Hd & Hl)
    end.
    cbn [comp trace] in *. rewrite fetches_app in *. simpl in Hn, He, Hp.
    rewrite length_app in *. simpl in *.
    replace (length (fetches (trace w)) + 1)
      with (S (length (fetches (trace w)))) in * by lia.
    exists w'. split; [reflexivity|].
    destruct (uploadErrorOf file _) as [e|]; cbn [comp uploadErrors progress
      documents setUploadErrors setProgress] in *.
    + rewrite He, Hp, Hn, Hd, <- app_assoc. repeat split; try lia.
      intros d _. apply Hl. unfold last_commit.
      rewrite commits_app. simpl. now rewrite last_last.
    + rewrite He, Hp, Hn, Hd, advanced_S. repeat split; try lia.
      intros d _. apply Hl. unfold last_commit.
      rewrite commits_app. simpl. now rewrite last_last.
Qed.

Lemma loadDocuments_shape net fid w :
  truthy fid = true ->
  exists w' post,
    loadDocuments net (Some fid) w = (Ok tt, w')
    /\ trace w' = trace w ++ EvFetch (listRequest fid) :: post
    /\ uploadErrors (comp w') = uploadErrors (comp w)
    /\ fetches post = [].
Proof.
  intros Ht. unfold loadDocuments, try_catch, bind, fetch, setState,
    folderIdText, console_error, emit.
  cbn [truthy_opt]. rewrite Ht. cbn [negb comp trace].
  change (mkReq GET _ _) with (listRequest fid).
  destruct (net _ _) as [|[|] [d|]]; cbn [fst snd json ret throw comp trace];
    do 2 eexists; (split; [reflexivity|]); cbn [trace comp];
    rewrite <- ?app_assoc; repeat split; reflexivity.
Qed.

(** X23: a batch sent to a folder with a non-empty id leaves as error
    list exactly the entries of the uploads that failed, in the order of
    the files: the server's [detail] for a non-success answer that carries
    one, "Upload failed" otherwise; and when the refresh is requested the
    counter stands at the number of uploads that succeeded, out of the
    number of files. *)
Theorem handleFileUpload_fold net fid file rest u :
  truthy fid = true ->
  let files := file :: rest in
  let r := run (handleFileUpload net (Some fid) (Some files)) u in
  uploadErrors (comp (snd r)) = batchErrors net fid 0 files
  /\ progress (last_commit (before_fetch (length files) (trace (snd r))) u)
     = Some (mkProgress (batchSuccesses net fid 0 files) (length files))
  /\ length (batchErrors net fid 0 files) + batchSuccesses net fid 0 files
     = length files.
Proof.
  intros Ht files r.
  assert (Hcount : forall k l,
             length (batchErrors net fid k l) + batchSuccesses net fid k l
             = length l).
  { intros k l. revert k. induction l as [|x l IH]; intros k; simpl;
      [reflexivity|].
    destruct (uploadErrorOf x _); simpl; rewrite <- (IH (S k)); lia. }
  assert (Hr : exists w,
             r = (Ok tt, w)
             /\ uploadErrors (comp w) = batchErrors net fid 0 files
             /\ progress (last_commit (before_fetch (length files) (trace w))
                                      u)
                = Some (mkProgress (batchSuccesses net fid 0 files)
                                   (length files))).
  { subst r.
    unfold run, handleFileUpload. cbn [length Nat.eqb orb truthy_opt].
    fold files. replace (length files =? 0) with false by reflexivity.
    rewrite Ht. cbn [negb orb].
    unfold bind at 1 2 3, setState at 1 2 3. cbn [comp trace app].
    unfold try_finally, bind at 1.
    match goal with
    | |- context [uploadLoop net (Some fid) files ?w0] =>
        destruct (uploadLoop_fold net fid files w0)
          as (w1 & -> & He & Hp & Hn & _ & Hl)
    end.
    cbn [comp trace fetches flat_map app length uploadErrors progress
         setProgress setUploadErrors setUploading] in He, Hp, Hn.
    specialize (Hl u eq_refl).
    destruct (loadDocuments_shape net fid w1 Ht)
      as (w2 & post & -> & Ht2 & He2 & _).
    unfold bind, setState. cbn [fst snd comp trace].
    eexists. split; [reflexivity|]. cbn [comp trace uploadErrors
      setFileInputValue setProgress setUploading].
    split; [now rewrite He2, He|].
    rewrite Ht2, <- !app_assoc. cbn [app].
    replace (length files) with (length (fetches (trace w1)))
      by (rewrite Hn; reflexivity).
    rewrite before_fetch_app, Hl, Hp.
    rewrite advanced_counter. rewrite Hn. reflexivity. }
  destruct Hr as (w & -> & He & Hp). cbn [snd].
  split; [exact He|]. split; [exact Hp|apply Hcount].
Qed.

Lemma handleFileUpload_fold_witness :
  let r := run (handleFileUpload net_second_fails (Some (lit "17"))
                                 (Some [file1; file2; file3])) upload_idle in
  uploadErrors (comp (snd r))
  = [mkUploadError (lit "b.pdf") (lit "too large")].
Proof.
  intros r.
  destruct (handleFileUpload_fold net_second_fails (lit "17") file1
              [file2; file3] upload_idle eq_refl) as (H & _ & _).
  exact H.
Defined.

(** X22: a change event with no file, or on a panel whose folder id is
    null or empty, does nothing: no request, no state change. *)
Theorem handleFileUpload_guard net folderId targetFiles u :
  targetFiles = None \/ targetFiles = Some [] \/ truthy_opt folderId = false ->
  run (handleFileUpload net folderId targetFiles) u = (Ok tt, mkWorld u []).
Proof.
  unfold run, handleFileUpload.
  intros [->|[->|H]]; [reflexivity|reflexivity|].
  destruct targetFiles as [files|]; [|reflexivity].
  rewrite H. cbn [negb]. now rewrite orb_true_r.
Qed.

Lemma handleFileUpload_guard_witness :
  run (handleFileUpload net_ok None (Some [file1])) upload_idle
  = (Ok tt, mkWorld upload_idle []).
Proof.
  apply (handleFileUpload_guard net_ok None (Some [file1]) upload_idle).
  right. right. reflexivity.
Defined.

Lemma handleFileUpload_cleanup_witness :
  let r := run (handleFileUpload net_down (Some (lit "17"))
                                 (Some [file1; file2])) upload_idle in
  fst r = Ok tt
  /\ fetches (trace (snd r))
     = [uploadRequest (lit "17") file1; uploadRequest (lit "17") file2;
        listRequest (lit "17")]
  /\ uploading (comp (snd r)) = false
  /\ progress (comp (snd r)) = None
  /\ fileInputValue (comp (snd r)) = lit "".
Proof.
  exact (handleFileUpload_cleanup net_down (lit "17") file1 [file2]
           upload_idle eq_refl).
Defined.



(** X26: [handleDeleteFile] on a folder with a non-empty id ends normally
    whatever happens.  The file is marked as being deleted when the
    request is sent and unmarked at the end.  The list is refreshed, by
    one more request, exactly when the delete got a success status;
    otherwise no other request is sent and the document list stays as it
    was. *)
Theorem handleDeleteFile_settles net fid responseText name u :
  truthy fid = true ->
  let r := run (handleDeleteFile net (Some fid) responseText name) u in
  let answer := net 0 (deleteFileRequest fid name) in
  fst r = Ok tt
  /\ deletingFile (last_commit (before_fetch 0 (trace (snd r))) u) = Some name
  /\ deletingFile (comp (snd r)) = None
  /\ fetches (trace (snd r))
     = (if negb (upload_failed answer)
        then [deleteFileRequest fid name; listRequest fid]
        else [deleteFileRequest fid name])
  /\ (upload_failed answer = true -> documents (comp (snd r)) = documents u).
Proof.
  intros Ht r answer.
  assert (Hr : exists w post,
             r = (Ok tt, w)
             /\ trace w = EvCommit (setDeletingFile (Some name) u)
                          :: EvFetch (deleteFileRequest fid name) :: post
             /\ deletingFile (comp w) = None
             /\ fetches (trace w)
                = (if negb (upload_failed answer)
                   then [deleteFileRequest fid name; listRequest fid]
                   else [deleteFileRequest fid name])
             /\ (upload_failed answer = true ->
                 documents (comp w) = documents u)).
  { subst r answer. unfold run, handleDeleteFile.
    cbn [truthy_opt]. rewrite Ht. cbn [negb].
    unfold try_finally, try_catch, bind at 1 2, setState at 1, fetch.
    cbn [comp trace app fetches flat_map length folderIdText].
    destruct (net 0 (deleteFileRequest fid name)) as [|[|] body];
      cbn [fst snd upload_failed negb].
    - do 2 eexists. repeat split; reflexivity.
    - match goal with
      | |- context [loadDocuments net (Some fid) ?w0] =>
          destruct (loadDocuments_shape net fid w0 Ht)
            as (w1 & post & -> & Htr & _ & Hf)
      end.
      cbn [trace comp] in Htr.
      unfold setState. cbn [fst snd comp trace].
      do 2 eexists. split; [reflexivity|]. cbn [trace comp].
      rewrite Htr. cbn [app]. split; [reflexivity|]. split; [reflexivity|].
      split; [|discriminate].
      cbn [fetches flat_map app]. fold (fetches (post ++ [EvCommit (setDeletingFile None (comp w1))])).
      rewrite fetches_app, Hf. reflexivity.
    - do 2 eexists. repeat split; reflexivity. }
  destruct Hr as (w & post & -> & Htr & Hd & Hf & Hdoc). cbn [fst snd].
  split; [reflexivity|]. split; [now rewrite Htr|].
  split; [exact Hd|]. split; [exact Hf|exact Hdoc].
Qed.

Lemma handleDeleteFile_settles_witness :
  let r := run (handleDeleteFile net_reply (Some (lit "17")) (fun _ => lit "")
                                 (lit "a.pdf")) upload_idle in
  fst r = Ok tt
  /\ fetches (trace (snd r))
     = [deleteFileRequest (lit "17") (lit "a.pdf"); listRequest (lit "17")].
Proof.
  intros r.
  destruct (handleDeleteFile_settles net_reply (lit "17") (fun _ => lit "")
              (lit "a.pdf") upload_idle eq_refl) as (H1 & _ & _ & H4 & _).
  split; [exact H1|exact H4].
Defined.

(** *** The panel without per-file errors *)

Lemma legacy_uploadLoop_spec net fid data_filename files :
  forall w, exists r w',
    Legacy.uploadLoop net (Some fid) data_filename files w = (r, w')
    /\ fetches (trace w')
       = fetches (trace w)
         ++ map (uploadRequest fid)
                (Legacy.requested net fid (length (fetches (trace w))) files)
    /\ Legacy.documents (comp w')
       = Legacy.documents (comp w)
         ++ Legacy.stored net fid data_filename
                          (length (fetches (trace w))) files
    /\ Legacy.uploading (comp w') = Legacy.uploading (comp w).
Proof.
  induction files as [|file rest IH]; intros w.
  - exists (Ok tt), w. simpl. rewrite !app_nil_r. repeat split.
  - cbn [Legacy.uploadLoop Legacy.requested Legacy.stored].
    unfold bind at 1, fetch. cbn [folderIdText].
    change (mkReq POST _ _) with (uploadRequest fid file).
    destruct (net (length (fetches (trace w))) (uploadRequest fid file))
      as [|[|] [d|]]; cbn [fst snd negb replied].
    + do 2 eexists. split; [reflexivity|]. cbn [trace comp].
      rewrite fetches_app, app_nil_r. repeat split.
    + unfold bind at 1 2, json, ret, setState. cbn [comp trace].
      match goal with
      | |- context [Legacy.uploadLoop net (Some fid) data_filename rest ?w1] =>
          destruct (IH w1) as (r & w' & -> & Hf & Hd & Hu)
      end.
      cbn [comp trace Legacy.setDocuments Legacy.documents Legacy.uploading]
        in Hf, Hd, Hu.
      rewrite !fetches_app in Hf, Hd. simpl in Hf, Hd.
      rewrite app_nil_r, length_app in Hf, Hd. simpl in Hf, Hd.
      replace (length (fetches (trace w)) + 1)
        with (S (length (fetches (trace w)))) in Hf, Hd by lia.
      exists r, w'. split; [reflexivity|].
      rewrite Hf, Hd, Hu, <- !app_assoc. repeat split.
    + unfold bind at 1, json, throw.
      do 2 eexists. split; [reflexivity|]. cbn [trace comp].
      rewrite fetches_app, app_nil_r. repeat split.
    + do 2 eexists. split; [reflexivity|]. cbn [trace comp].
      rewrite fetches_app, app_nil_r. repeat split.
    + do 2 eexists. split; [reflexivity|]. cbn [trace comp].
      rewrite fetches_app, app_nil_r. repeat split.
Qed.

(** X27: in the panel without per-file errors, a batch sent to a folder
    with a non-empty id ends normally and stops at the first upload that
    is not answered by a success with a readable body: the files after it
    are never sent, the document list gains the names returned for the
    files before it, in order, no refresh is requested, and the panel is
    no longer uploading at the end. *)
Theorem legacy_handleFileUpload_stops net fid data_filename file rest p :
  truthy fid = true ->
  let files := file :: rest in
  let r := run (Legacy.handleFileUpload net (Some fid) data_filename
                                        (Some files)) p in
  fst r = Ok tt
  /\ fetches (trace (snd r))
     = map (uploadRequest fid) (Legacy.requested net fid 0 files)
  /\ Legacy.documents (comp (snd r))
     = Legacy.documents p ++ Legacy.stored net fid data_filename 0 files
  /\ Legacy.uploading (comp (snd r)) = false.
Proof.
  intros Ht files r.
  assert (Hr : exists w,
             r = (Ok tt, w)
             /\ fetches (trace w)
                = map (uploadRequest fid) (Legacy.requested net fid 0 files)
             /\ Legacy.documents (comp w)
                = Legacy.documents p
                  ++ Legacy.stored net fid data_filename 0 files
             /\ Legacy.uploading (comp w) = false).
  { subst r. unfold run, Legacy.handleFileUpload.
    cbn [truthy_opt]. fold files.
    replace (length files =? 0) with false by reflexivity.
    rewrite Ht. cbn [negb orb].
    unfold bind at 1, setState at 1. cbn [comp trace app].
    unfold try_finally, try_catch.
    match goal with
    | |- context [Legacy.uploadLoop net (Some fid) data_filename files ?w0] =>
        destruct (legacy_uploadLoop_spec net fid data_filename files w0)
          as (res & w1 & -> & Hf & Hd & _)
    end.
    cbn [comp trace fetches flat_map length app Legacy.documents
         Legacy.setUploading] in Hf, Hd.
    destruct res as [[]|e]; unfold setState, console_error, emit;
      cbn [fst snd comp trace]; eexists; (split; [reflexivity|]);
      cbn [comp trace Legacy.documents Legacy.uploading Legacy.setUploading];
      rewrite !fetches_app, Hf; simpl; rewrite ?app_nil_r;
      repeat split; exact Hd. }
  destruct Hr as (w & -> & H). exact (conj eq_refl H).
Qed.

Lemma legacy_handleFileUpload_stops_witness :
  let r := run (Legacy.handleFileUpload net_second_fails (Some (lit "17"))
                  (fun _ => lit "stored") (Some [file1; file2; file3]))
               (Legacy.mkPanel false []) in
  fst r = Ok tt
  /\ fetches (trace (snd r))
     = [uploadRequest (lit "17") file1; uploadRequest (lit "17") file2]
  /\ Legacy.documents (comp (snd r)) = [lit "stored"]
  /\ Legacy.uploading (comp (snd r)) = false.
Proof.
  exact (legacy_handleFileUpload_stops net_second_fails (lit "17")
           (fun _ => lit "stored") file1 [file2; file3]
           (Legacy.mkPanel false []) eq_refl).
Defined.

(** *** The file list *)

Lemma fileList_fetchFiles_total net fid w :
  exists w', FileList.fetchFiles net fid w = (Ok tt, w').
Proof.
  unfold FileList.fetchFiles, try_catch, bind, fetch, setState, console_error,
    emit.
  destruct (net _ _) as [|[|] [d|]]; cbn [fst snd json ret throw];
    eexists; reflexivity.
Qed.

Lemma fileList_deleteFile_failed net fid responseText name s :
  upload_failed (net 0 (deleteFileRequest fid name)) = true ->
  exists t,
    fetches t = [deleteFileRequest fid name]
    /\ forall callback,
         run (FileList.deleteFile net fid callback responseText name) s
         = (Ok tt,
            mkWorld (FileList.setIsDeleting None
                       (FileList.setIsDeleting (Some name) s)) t).
Proof.
  intros H.
  unfold run, FileList.deleteFile, try_finally, try_catch, bind, setState,
    fetch, console_error, emit.
  cbn [comp trace app fetches flat_map length].
  destruct (net 0 (deleteFileRequest fid name)) as [|[|] body];
    cbn [upload_failed negb] in H; try discriminate H;
    cbn [fst snd]; eexists; (split; [|intros callback; reflexivity]);
    reflexivity.
Qed.

Lemma fileList_deleteFile_total net fid callback responseText name s :
  exists w,
    run (FileList.deleteFile net fid callback responseText name) s = (Ok tt, w)
    /\ FileList.isDeleting (comp w) = None.
Proof.
  destruct (upload_failed (net 0 (deleteFileRequest fid name))) eqn:F.
  - destruct (fileList_deleteFile_failed net fid responseText name s F)
      as (t & _ & H).
    rewrite H. eexists. split; reflexivity.
  - unfold run, FileList.deleteFile, try_finally, try_catch.
    unfold bind at 1 2 3, setState at 1, fetch.
    cbn [comp trace app fetches flat_map length].
    destruct (net 0 (deleteFileRequest fid name)) as [|[|] body];
      cbn [upload_failed negb] in F; try discriminate F.
    cbn [fst snd].
    match goal with
    | |- context [FileList.fetchFiles net fid ?w0] =>
        destruct (fileList_fetchFiles_total net fid w0) as (w1 & ->)
    end.
    destruct callback as [cb|].
    + destruct (cb w1) as [[[]|e] w2]; unfold setState, console_error, emit;
        cbn [fst snd comp trace]; eexists; split; reflexivity.
    + unfold setState, ret. cbn [fst snd comp trace].
      eexists. split; reflexivity.
Qed.

(** X28: [deleteFile] of the file list ends normally and leaves no file
    marked as being deleted, whatever the backend answers and whatever
    the parent's callback does, a throw included.  When the delete fails
    (in transport or by its status) the callback is not run: the outcome
    is the one without a callback, a single request has been sent and the
    list of files is as it was. *)
Theorem fileList_deleteFile_settles net fid callback responseText name s :
  let r := run (FileList.deleteFile net fid callback responseText name) s in
  fst r = Ok tt
  /\ FileList.isDeleting (comp (snd r)) = None
  /\ (upload_failed (net 0 (deleteFileRequest fid name)) = true ->
      r = run (FileList.deleteFile net fid None responseText name) s
      /\ fetches (trace (snd r)) = [deleteFileRequest fid name]
      /\ FileList.files (comp (snd r)) = FileList.files s).
Proof.
  intros r. subst r.
  destruct (fileList_deleteFile_total net fid callback responseText name s)
    as (w & E & Hd).
  split; [now rewrite E|]. split; [now rewrite E|].
  intros F.
  destruct (fileList_deleteFile_failed net fid responseText name s F)
    as (t & Ht & H).
  rewrite (H callback), (H None). cbn [snd comp trace].
  split; [reflexivity|]. split; [exact Ht|reflexivity].
Qed.

(** X29: [fetchFiles] of the file list sends its request for any folder
    id, the empty one included, and ends normally; the list of files
    becomes the list of the answer when the answer is a success with a
    readable body and stays as it was otherwise; the deletion mark is not
    touched; the component renders nothing exactly when the resulting
    list is empty. *)
Theorem fileList_fetchFiles_replaces_or_keeps net fid s :
  let r := run (FileList.fetchFiles net fid) s in
  fst r = Ok tt
  /\ fetches (trace (snd r)) = [listRequest fid]
  /\ FileList.files (comp (snd r))
     = match net 0 (listRequest fid) with
       | Response true (Some d) => data_documents d
       | _ => FileList.files s
       end
  /\ FileList.isDeleting (comp (snd r)) = FileList.isDeleting s
  /\ (FileList.rendersNothing (comp (snd r)) = true
      <-> FileList.files (comp (snd r)) = []).
Proof.
  intros r.
  assert (Hrender : forall st, FileList.rendersNothing st = true
                               <-> FileList.files st = []).
  { intros st. unfold FileList.rendersNothing.
    destruct (FileList.files st); simpl; split; congruence. }
  assert (Hr : exists w,
             r = (Ok tt, w)
             /\ fetches (trace w) = [listRequest fid]
             /\ FileList.files (comp w)
                = match net 0 (listRequest fid) with
                  | Response true (Some d) => data_documents d
                  | _ => FileList.files s
                  end
             /\ FileList.isDeleting (comp w) = FileList.isDeleting s).
  { subst r. unfold run, FileList.fetchFiles, try_catch, bind, fetch,
      setState, console_error, emit.
    cbn [comp trace fetches flat_map length].
    destruct (net 0 (listRequest fid)) as [|[|] [d|]];
      cbn [fst snd json ret throw comp trace];
      eexists; repeat split; reflexivity. }
  destruct Hr as (w & -> & H1 & H2 & H3). cbn [fst snd].
  split; [reflexivity|]. split; [exact H1|]. split; [exact H2|].
  split; [exact H3|apply Hrender].
Qed.

Lemma fileList_fetchFiles_replaces_or_keeps_witness :
  let r := run (FileList.fetchFiles net_reply (lit "17"))
               (FileList.mkState [lit "old.txt"] None) in
  FileList.files (comp (snd r)) = [lit "a.pdf"]
  /\ FileList.rendersNothing (comp (snd r)) = false.
Proof.
  intros r.
  destruct (fileList_fetchFiles_replaces_or_keeps net_reply (lit "17")
              (FileList.mkState [lit "old.txt"] None))
    as (_ & _ & H & _ & _).
  fold r in H. split; [exact H|reflexivity].
Defined.
